(** * moq: interface mock generator (pkg/moq/moq.go)

    A shallow embedding of the generator's core: signature extraction
    ([extractArgs]), import qualification ([packageQualifier]), vendor path
    stripping ([stripVendorPath]), stale file cleanup ([removeOldMocks]) and
    the driver ([New], [Mock]), with the parts of the Go standard library and
    of go/types they call. *)

From Stdlib Require Import String Ascii List Arith Bool Lia Permutation.
From Stdlib Require Import DecimalString.
From Stdlib Require DecimalNat OrderedTypeEx.
Import ListNotations.
Open Scope list_scope.
Open Scope string_scope.

(** ** Go's [strings] package, as far as moq.go calls it *)

Module strings.

(** [s[n:]] for [n <= len(s)]. *)
Fixpoint drop (n : nat) (s : string) : string :=
  match n, s with
  | O, _ => s
  | S _, EmptyString => EmptyString
  | S k, String _ s' => drop k s'
  end.

(** [s[:n]] for [n <= len(s)]. *)
Fixpoint take (n : nat) (s : string) : string :=
  match n, s with
  | O, _ => EmptyString
  | S _, EmptyString => EmptyString
  | S k, String c s' => String c (take k s')
  end.

(** [s[lo:hi]] with Go's bounds check: [None] is the run-time panic
    "slice bounds out of range". *)
Definition slice (s : string) (lo hi : nat) : option string :=
  if ((lo <=? hi)%nat && (hi <=? String.length s)%nat)%bool
  then Some (take (hi - lo) (drop lo s))
  else None.

Definition HasPrefix (s pre : string) : bool := String.prefix pre s.

Definition HasSuffix (s suf : string) : bool :=
  (String.length suf <=? String.length s)%nat
  && String.eqb (drop (String.length s - String.length suf) s) suf.

(** [strings.Index]: position of the first instance of [sep] in [s]. *)
Fixpoint Index (s sep : string) : option nat :=
  if String.prefix sep s then Some 0
  else match s with
       | EmptyString => None
       | String _ s' => option_map S (Index s' sep)
       end.

Definition Contains (s sub : string) : bool :=
  match Index s sub with Some _ => true | None => false end.

(** [strings.Split] for a non-empty separator: cut at each instance of
    [sep], left to right, instances not overlapping. Every round removes at
    least one byte, so [length s] rounds are enough. *)
Fixpoint genSplit (rounds : nat) (s sep : string) : list string :=
  match rounds with
  | O => [s]
  | S r =>
      match Index s sep with
      | None => [s]
      | Some m => take m s :: genSplit r (drop (m + String.length sep) s) sep
      end
  end.

Fixpoint explode (s : string) : list string :=
  match s with
  | EmptyString => []
  | String c s' => String c EmptyString :: explode s'
  end.

Definition Split (s sep : string) : list string :=
  match sep with
  | EmptyString => explode s
  | _ => genSplit (String.length s) s sep
  end.

Fixpoint Join (elems : list string) (sep : string) : string :=
  match elems with
  | [] => EmptyString
  | [e] => e
  | e :: rest => e ++ sep ++ Join rest sep
  end.

Fixpoint inCutset (c : ascii) (cutset : string) : bool :=
  match cutset with
  | EmptyString => false
  | String d rest => Ascii.eqb c d || inCutset c rest
  end.

Fixpoint TrimLeft (s cutset : string) : string :=
  match s with
  | EmptyString => EmptyString
  | String c s' => if inCutset c cutset then TrimLeft s' cutset else s
  end.

Definition TrimPrefix (s pre : string) : string :=
  if HasPrefix s pre then drop (String.length pre) s else s.

(** [strings.ToUpper] on ASCII text, byte by byte: [a]..[z] move to
    [A]..[Z], every other byte stays. Text with a byte of 0x80 or above
    goes through Unicode case mapping in Go and is outside this model. *)
Definition isASCII (s : string) : bool :=
  forallb (fun c => (nat_of_ascii c <? 128)%nat) (list_ascii_of_string s).

Definition isLower (c : ascii) : bool :=
  ((97 <=? nat_of_ascii c)%nat && (nat_of_ascii c <=? 122)%nat)%bool.

Definition upperByte (c : ascii) : ascii :=
  if isLower c then ascii_of_nat (nat_of_ascii c - 32) else c.

Fixpoint ToUpper (s : string) : string :=
  match s with
  | EmptyString => EmptyString
  | String c s' => String (upperByte c) (ToUpper s')
  end.

End strings.

(** ** Go's [path] and [path/filepath] on a slash-separated system *)

Module path.

Definition sep : string := "/".

(** One step of [Clean]'s component stack: [.] and empty components
    vanish, [..] removes the component before it, is dropped at the root
    and is kept at the start of a relative path. *)
Definition cleanStep (rooted : bool) (stack : list string) (c : string) : list string :=
  if String.eqb c "" || String.eqb c "." then stack
  else if String.eqb c ".." then
    match stack with
    | [] => if rooted then [] else [".."]
    | top :: below => if String.eqb top ".." then ".." :: stack else below
    end
  else c :: stack.

(** [path.Clean]: the shortest path equivalent to [p] by purely lexical
    processing. The stack is kept reversed. *)
Definition Clean (p : string) : string :=
  let rooted := strings.HasPrefix p sep in
  let stack := fold_left (cleanStep rooted) (strings.Split p sep) [] in
  let body := strings.Join (rev stack) sep in
  if rooted then sep ++ body
  else if String.eqb body "" then "." else body.

(** [path.Join]: leading empty elements are ignored, the rest is joined
    with slashes and cleaned; all-empty input gives the empty string. *)
Fixpoint Join (elem : list string) : string :=
  match elem with
  | [] => EmptyString
  | e :: rest =>
      if String.eqb e "" then Join rest
      else Clean (strings.Join elem sep)
  end.

(** Index just past the last slash of [p] (0 when there is none). *)
Fixpoint lastSlash (p : string) : nat :=
  match p with
  | EmptyString => 0
  | String c rest =>
      match lastSlash rest with
      | S k => S (S k)
      | O => if Ascii.eqb c "/" then 1 else 0
      end
  end.

(** [filepath.Dir]: all but the last element of [p], cleaned. *)
Definition Dir (p : string) : string :=
  Clean (strings.take (lastSlash p) p).

(** [filepath.SplitList]: the entries of a colon-separated list such as
    GOPATH; the empty string has none. *)
Definition SplitList (p : string) : list string :=
  if String.eqb p "" then [] else strings.Split p ":".

End path.

(** Decimal rendering of a non-negative integer, as the verb [%d] prints it. *)
Definition decimal (n : nat) : string := NilEmpty.string_of_uint (Nat.to_uint n).

(** [fmt.Sprintf] for a format with one [%d] verb and one integer
    argument, the way [extractArgs] calls it. *)
Fixpoint Sprintf (format : string) (arg : nat) : string :=
  match format with
  | EmptyString => EmptyString
  | String c rest =>
      if strings.HasPrefix format "%d"
      then decimal arg ++ strings.drop 2 format
      else String c (Sprintf rest arg)
  end.

(** ** The fragment of go/types that signature extraction reads *)

Module types.

Record Package := mkPackage { Path : string; Name : string }.

Inductive ChanDir := SendRecv | SendOnly | RecvOnly.

Inductive Type_ :=
| Basic (name : string)
| Named (pkg : option Package) (name : string)
| Pointer (base : Type_)
| Slice (elem : Type_)
| Array (len : nat) (elem : Type_)
| Map (key elem : Type_)
| Chan (dir : ChanDir) (elem : Type_).

(** A parameter or result: [Var.Name] is empty when the source omits it. *)
Record Var := mkVar { VarName : string; VarType : Type_ }.

Record Signature := mkSignature {
  Params : list Var;
  Results : list Var;
  Variadic : bool
}.

Record Func := mkFunc { FuncName : string; FuncType : Signature }.

(** What a scope maps a name to: the object's type and, when that type's
    underlying type is an interface, its completed method set. *)
Record Object := mkObject {
  ObjType : Type_;
  Methods : option (list Func)
}.

Record PackageInfo := mkPackageInfo {
  Pkg : Package;
  Scope : list (string * Object)
}.

Fixpoint Lookup (scope : list (string * Object)) (n : string) : option Object :=
  match scope with
  | [] => None
  | (k, o) :: rest => if String.eqb k n then Some o else Lookup rest n
  end.

Section TypeString.

(** The qualifier is a closure over the caller's state [St]: it is called
    once for every package-level named type met, left to right. *)
Context {St : Type} (qf : Package -> St -> string * St).

Definition writePackage (pkg : Package) (st : St) : string * St :=
  let (s, st') := qf pkg st in
  (if String.eqb s "" then "" else s ++ ".", st').

Definition chanPrefix (dir : ChanDir) : string :=
  match dir with
  | SendRecv => "chan "
  | SendOnly => "chan<- "
  | RecvOnly => "<-chan "
  end.

Definition chanParens (dir : ChanDir) (elem : Type_) : bool :=
  match dir, elem with
  | SendRecv, Chan RecvOnly _ => true
  | _, _ => false
  end.

Fixpoint TypeString (typ : Type_) (st : St) : string * St :=
  match typ with
  | Basic name => (name, st)
  | Named None name => (name, st)
  | Named (Some pkg) name =>
      let (q, st') := writePackage pkg st in (q ++ name, st')
  | Pointer base =>
      let (s, st') := TypeString base st in ("*" ++ s, st')
  | Slice elem =>
      let (s, st') := TypeString elem st in ("[]" ++ s, st')
  | Array len elem =>
      let (s, st') := TypeString elem st in ("[" ++ decimal len ++ "]" ++ s, st')
  | Map key elem =>
      let (k, st1) := TypeString key st in
      let (e, st2) := TypeString elem st1 in
      ("map[" ++ k ++ "]" ++ e, st2)
  | Chan dir elem =>
      let (s, st') := TypeString elem st in
      (chanPrefix dir ++ (if chanParens dir elem then "(" ++ s ++ ")" else s), st')
  end.

End TypeString.

(** [Type.String()]: no qualifier, packages are written by their path. *)
Definition String_ (typ : Type_) : string :=
  fst (TypeString (fun pkg (_ : unit) => (Path pkg, tt)) typ tt).

End types.

(** ** moq.go *)

Module moq.

Record param := mkParam {
  par_Name : string;
  par_Type : string;
  par_Variadic : bool
}.

Record method := mkMethod {
  meth_Name : string;
  meth_Params : list param;
  meth_Returns : list param
}.

Record obj := mkObj {
  InterfaceName : string;
  Methods : list method
}.

Record doc := mkDoc {
  PackageName : string;
  Objects : list obj;
  Imports : list string
}.

(** A parsed template: [Execute] on a [doc] gives the rendered text or fails. *)
Definition Template := doc -> option string.

(** [imports] is the key set of the Go map, in insertion order; the order
    in which [range] visits it is the run's, see [World]. *)
Record Mocker := mkMocker {
  src : string;
  tmpl : Template;
  pkgName : string;
  m_pkgPath : string;
  imports : list string
}.

Inductive error :=
| ErrNoPackageName                 (* failed to determine package name *)
| ErrMustSpecify                   (* must specify one interface *)
| ErrCleanup                       (* failed to clean up old mocks *)
| ErrAbs                           (* filepath.Abs *)
| ErrBadPattern                    (* filepath.Glob *)
| ErrParseDir                      (* parser.ParseDir *)
| ErrTemplateParse                 (* template.Parse *)
| ErrLoad                          (* loader.Config.Load *)
| ErrPackageNil                    (* package was nil *)
| ErrNotFound (n : string)         (* cannot find interface n *)
| ErrNotInterface (n ty : string)  (* n (ty) not an interface *)
| ErrExecute                       (* template.Execute *)
| ErrGoimports                     (* goimports: ... *)
| ErrWrite.                        (* io.Writer.Write *)

(** How a call ends: a value, a returned error, or a run-time panic. *)
Inductive Result (A : Type) :=
| Ok (a : A)
| Err (e : error)
| Panic.
Arguments Ok {A} a.
Arguments Err {A} e.
Arguments Panic {A}.

(** A file of the destination directory; [os.Remove] fails on a locked one. *)
Record File := mkFile { file_path : string; file_locked : bool }.

(** What a run reads from outside moq.go. [moqTemplate] and [moqImports]
    are the package's template constants; the rest is the platform:
    working directory, GOPATH, the Go files of a directory with the package
    each declares, glob results, the type loader and goimports.
    [rangeKeys] is the order in which this run's [range] visits the keys of
    a map. *)
Record World := mkWorld {
  Getwd : option string;
  GOPATH : string;
  goFiles : string -> option (list (string * string));
  Glob : string -> option (list string);
  Load : string -> string -> option (option types.PackageInfo);
  moqTemplate : option Template;
  moqImports : list string;
  Process : string -> option string;
  rangeKeys : list string -> list string
}.

(** An [io.Writer]: the chunks written so far; a broken one rejects writes. *)
Record Writer := mkWriter { written : list string; broken : bool }.

Definition Write (w : Writer) (p : string) : option error * Writer :=
  if broken w then (Some ErrWrite, w)
  else (None, mkWriter (written w ++ [p])%list (broken w)).

(** [os.Remove]: deletes the named file; an error when it is missing or locked. *)
Fixpoint Remove (name : string) (files : list File) : option error * list File :=
  match files with
  | [] => (Some ErrCleanup, [])
  | f :: rest =>
      if String.eqb (file_path f) name
      then if file_locked f then (Some ErrCleanup, files) else (None, rest)
      else let (e, rest') := Remove name rest in (e, f :: rest')
  end.

(** [filepath.Abs]. *)
Definition Abs (W : World) (p : string) : option string :=
  if strings.HasPrefix p "/" then Some (path.Clean p)
  else match Getwd W with
       | Some wd => Some (path.Join [wd; p])
       | None => None
       end.

Definition gopaths (W : World) : list string := path.SplitList (GOPATH W).

Definition stripGopath (W : World) (p : string) : string :=
  fold_left
    (fun p gopath => strings.TrimPrefix p (path.Join [gopath; "src"] ++ "/"))
    (gopaths W) p.

Definition pkgPath (W : World) (src : string) : Result string :=
  match Abs W src with
  | None => Err ErrAbs
  | Some abs => Ok (stripGopath W abs)
  end.

Definition stripVendorPath (p : string) : string :=
  let parts := strings.Split p "/vendor/" in
  if Nat.eqb (List.length parts) 1 then p
  else strings.TrimLeft (path.Join (tl parts)) "/".

(** State of the receiver threaded through the methods of [*Mocker]. *)
Definition M (A : Type) : Type := Mocker -> Result A * Mocker.

Definition ret {A} (a : A) : M A := fun m => (Ok a, m).
Definition fail {A} (e : error) : M A := fun m => (Err e, m).
Definition panic {A} : M A := fun m => (Panic, m).

Definition bind {A B} (c : M A) (k : A -> M B) : M B :=
  fun m =>
    match c m with
    | (Ok a, m') => k a m'
    | (Err e, m') => (Err e, m')
    | (Panic, m') => (Panic, m')
    end.

Definition lift {A} (c : Mocker -> A * Mocker) : M A :=
  fun m => let (a, m') := c m in (Ok a, m').

Notation "x <- c ;; k" := (bind c (fun x => k))
  (at level 61, c at next level, right associativity).

(** [m.imports[path] = true]. *)
Definition record (p : string) (imports : list string) : list string :=
  if existsb (String.eqb p) imports then imports else (imports ++ [p])%list.

Definition noTestFiles (name : string) : bool :=
  negb (strings.HasSuffix name "_test.go").

(** [parser.ParseDir]: the names of the packages declared by the files of
    [src] that pass [filter] (the keys of the map it returns). *)
Definition ParseDir (W : World) (src : string) (filter : string -> bool)
  : option (list string) :=
  option_map
    (fun fs => nodup string_dec (map snd (List.filter (fun f => filter (fst f)) fs)))
    (goFiles W src).

(** The loop of [New] over the parsed packages, in the order [range]
    visits them: the first name without [_test]. *)
Fixpoint inferPackageName (pkgs : list string) : string :=
  match pkgs with
  | [] => ""
  | pkgName :: rest =>
      if strings.Contains pkgName "_test" then inferPackageName rest
      else pkgName
  end.

Definition New (W : World) (src packageName : string) : Result Mocker :=
  match ParseDir W src noTestFiles with
  | None => Err ErrParseDir
  | Some pkgs =>
      let packageName :=
        if Nat.eqb (String.length packageName) 0
        then inferPackageName (rangeKeys W pkgs)
        else packageName in
      if Nat.eqb (String.length packageName) 0 then Err ErrNoPackageName
      else
        match pkgPath W src with
        | Err e => Err e
        | Panic => Panic
        | Ok pkgPath =>
            let pkgPath := path.Join [path.Dir pkgPath; packageName] in
            match moqTemplate W with
            | None => Err ErrTemplateParse
            | Some tmpl => Ok (mkMocker src tmpl packageName pkgPath [])
            end
        end
  end.

(** The error of [os.Remove] is dropped, as in the source. *)
Definition removeOldMocks (W : World) (srcFolder : string) (files : list File)
  : option error * list File :=
  match Abs W srcFolder with
  | None => (Some ErrAbs, files)
  | Some abs =>
      match Glob W (path.Join [abs; "*_mock.go"]) with
      | None => (Some ErrBadPattern, files)
      | Some oldMocks =>
          (None, fold_left (fun fs mock => snd (Remove mock fs)) oldMocks files)
      end
  end.

Definition packageQualifier (pkg : types.Package) (m : Mocker) : string * Mocker :=
  let path := types.Path pkg in
  let importPath := path.Join [path.Dir path; types.Name pkg] in
  if String.eqb importPath (m_pkgPath m) then ("", m)
  else
    let path := if String.eqb path "." then m_pkgPath m else path in
    (types.Name pkg,
     mkMocker (src m) (tmpl m) (pkgName m) (m_pkgPath m) (record path (imports m))).

(** The loop of [extractArgs] from index [ii] on, [rest] being the
    parameters not yet visited. [typename[0:2]] is evaluated, and can panic,
    only after the two tests before it hold. *)
Fixpoint extractArgsFrom (sig : types.Signature) (listLen : nat) (nameFormat : string)
    (ii : nat) (rest : list types.Var) (params : list param) : M (list param) :=
  match rest with
  | [] => ret params
  | p :: rest' =>
      let name :=
        if String.eqb (types.VarName p) "" then Sprintf nameFormat (ii + 1)
        else types.VarName p in
      typename <- lift (types.TypeString packageQualifier (types.VarType p)) ;;
      variadic <-
        (if types.Variadic sig && Nat.eqb ii (listLen - 1)
         then match strings.slice typename 0 2 with
              | Some pre => ret (String.eqb pre "[]")
              | None => panic
              end
         else ret false) ;;
      extractArgsFrom sig listLen nameFormat (ii + 1) rest'
        (params ++ [mkParam name typename variadic])%list
  end.

Definition extractArgs (sig : types.Signature) (list : Datatypes.list types.Var)
    (nameFormat : string) : M (Datatypes.list param) :=
  let listLen := List.length list in
  extractArgsFrom sig listLen nameFormat 0 list [].

Definition pkgInfoFromPath (W : World) (src : string) : Result types.PackageInfo :=
  match pkgPath W src with
  | Err e => Err e
  | Panic => Panic
  | Ok pkgFull =>
      match Load W src pkgFull with
      | None => Err ErrLoad
      | Some None => Err ErrPackageNil
      | Some (Some pkgInfo) => Ok pkgInfo
      end
  end.

(** The loop of [Mock] over the methods of one interface. *)
Fixpoint mockMethods (meths : list types.Func) (methods : list method)
    (mocksMethods : bool) : M (list method * bool) :=
  match meths with
  | [] => ret (methods, mocksMethods)
  | meth :: rest =>
      let sig := types.FuncType meth in
      Params <- extractArgs sig (types.Params sig) "in%d" ;;
      Returns <- extractArgs sig (types.Results sig) "out%d" ;;
      mockMethods rest
        (methods ++ [mkMethod (types.FuncName meth) Params Returns])%list true
  end.

(** The loop of [Mock] over the requested names. *)
Fixpoint mockNames (tpkg : types.PackageInfo) (name : list string)
    (objects : list obj) (mocksMethods : bool) : M (list obj * bool) :=
  match name with
  | [] => ret (objects, mocksMethods)
  | n :: rest =>
      match types.Lookup (types.Scope tpkg) n with
      | None => fail (ErrNotFound n)
      | Some iface =>
          match types.Methods iface with
          | None => fail (ErrNotInterface n (types.String_ (types.ObjType iface)))
          | Some meths =>
              r <- mockMethods meths [] mocksMethods ;;
              mockNames tpkg rest (objects ++ [mkObj n (fst r)])%list (snd r)
          end
      end
  end.

(** [Mock] from the declaration of [doc] to the end of the loop over
    [m.imports]: the document handed to the template. *)
Definition mockDoc (W : World) (tpkg : types.PackageInfo) (name : list string) : M doc :=
  fun m =>
    let PackageName := pkgName m in
    (r <- mockNames tpkg name [] false ;;
     fun m' =>
       let Imports := moqImports W in
       let Imports := if snd r then (Imports ++ ["sync"])%list else Imports in
       let Imports :=
         (Imports ++ map stripVendorPath (rangeKeys W (imports m')))%list in
       (Ok (mkDoc PackageName (fst r) Imports), m')) m.

(** What a call of [Mock] leaves behind: its result, the receiver, the
    writer and the files of the destination directory. *)
Record Outcome := mkOutcome {
  result : Result unit;
  mocker : Mocker;
  writer : Writer;
  files : list File
}.

Definition Mock (W : World) (m : Mocker) (w : Writer) (name : list string)
    (fs : list File) : Outcome :=
  if Nat.eqb (List.length name) 0 then mkOutcome (Err ErrMustSpecify) m w fs
  else
    match removeOldMocks W (src m) fs with
    | (Some _, fs') => mkOutcome (Err ErrCleanup) m w fs'
    | (None, fs') =>
        match pkgInfoFromPath W (src m) with
        | Err e => mkOutcome (Err e) m w fs'
        | Panic => mkOutcome Panic m w fs'
        | Ok pkgInfo =>
            match mockDoc W pkgInfo name m with
            | (Err e, m') => mkOutcome (Err e) m' w fs'
            | (Panic, m') => mkOutcome Panic m' w fs'
            | (Ok doc, m') =>
                match tmpl m' doc with
                | None => mkOutcome (Err ErrExecute) m' w fs'
                | Some buf =>
                    match Process W buf with
                    | None => mkOutcome (Err ErrGoimports) m' w fs'
                    | Some formatted =>
                        match Write w formatted with
                        | (Some e, w') => mkOutcome (Err e) m' w' fs'
                        | (None, w') => mkOutcome (Ok tt) m' w' fs'
                        end
                    end
                end
            end
        end
    end.

(** The methods of [param] and [method] that the template calls. *)
Definition param_TypeString (p : param) : Result string :=
  if par_Variadic p then
    match strings.slice (par_Type p) 2 (String.length (par_Type p)) with
    | Some elem => Ok ("..." ++ elem)
    | None => Panic
    end
  else Ok (par_Type p).

Definition param_String (p : param) : Result string :=
  match param_TypeString p with
  | Ok t => Ok (par_Name p ++ " " ++ t)
  | Err e => Err e
  | Panic => Panic
  end.

Definition param_CallName (p : param) : string :=
  if par_Variadic p then par_Name p ++ "..." else par_Name p.

Fixpoint mapResult {A B} (f : A -> Result B) (l : list A) : Result (list B) :=
  match l with
  | [] => Ok []
  | a :: rest =>
      match f a, mapResult f rest with
      | Ok b, Ok bs => Ok (b :: bs)
      | Ok _, Err e => Err e
      | Err e, _ => Err e
      | _, _ => Panic
      end
  end.

Definition Arglist (m : method) : Result string :=
  match mapResult param_String (meth_Params m) with
  | Ok params => Ok (strings.Join params ", ")
  | Err e => Err e
  | Panic => Panic
  end.

Definition ArgCallList (m : method) : string :=
  strings.Join (map param_CallName (meth_Params m)) ", ".

Definition ReturnArglist (m : method) : Result string :=
  match mapResult param_TypeString (meth_Returns m) with
  | Ok params =>
      if Nat.ltb 1 (List.length (meth_Returns m))
      then Ok ("(" ++ strings.Join params ", " ++ ")")
      else Ok (strings.Join params ", ")
  | Err e => Err e
  | Panic => Panic
  end.

(** This list comes from the golint codebase. *)
Definition golintInitialisms : list string :=
  [ "ACL"; "API"; "ASCII"; "CPU"; "CSS"; "DNS"; "EOF"; "GUID"; "HTML"; "HTTP";
    "HTTPS"; "ID"; "IP"; "JSON"; "LHS"; "QPS"; "RAM"; "RHS"; "RPC"; "SLA";
    "SMTP"; "SQL"; "SSH"; "TCP"; "TLS"; "TTL"; "UDP"; "UI"; "UID"; "UUID";
    "URI"; "URL"; "UTF8"; "VM"; "XML"; "XMPP"; "XSRF"; "XSS" ].

(** The loop of [Exported] over the initialisms: the first one equal to
    [upper], the upper-cased name. *)
Fixpoint matchInitialism (upper : string) (initialisms : list string)
  : option string :=
  match initialisms with
  | [] => None
  | initialism :: rest =>
      if String.eqb upper initialism then Some initialism
      else matchInitialism upper rest
  end.

(** The template function [Exported]. [s[0:1]] and [s[1:]] are in bounds,
    [s] being non-empty where they are taken. *)
Definition Exported (s : string) : string :=
  if String.eqb s "" then ""
  else
    match matchInitialism (strings.ToUpper s) golintInitialisms with
    | Some initialism => initialism
    | None => strings.ToUpper (strings.take 1 s) ++ strings.drop 1 s
    end.

(** [main] once its arguments are parsed: [New] on the destination
    directory and the optional package name, then [Mock] on the receiver it
    returns with the interface names, writing to [w]. *)
Definition run (W : World) (destination pkg : string) (args : list string)
    (w : Writer) (fs : list File) : Result Outcome :=
  match New W destination pkg with
  | Err e => Err e
  | Panic => Panic
  | Ok m => Ok (Mock W m w args fs)
  end.

End moq.

(** ** The command (main.go) *)

Module cmd.
Import moq.

(** How the process ends: normally, by [os.Exit(1)] ([log.Fatalln] exits
    so too), or by a panic. *)
Inductive Exit := ExitOk | Exit1 | Crash.

(** What [main] leaves behind: the exit status, standard output, the
    listing of the destination directory that the cleanup works on, and the
    files [ioutil.WriteFile] has written, each with its content. *)
Record Process := mkProcess {
  exit : Exit;
  stdout : Writer;
  listing : list File;
  created : list (string * string)
}.







End cmd.

(** ** Sample packages and platforms *)

Module Examples.
Import moq.

Definition nl : string := String (Ascii.ascii_of_nat 10) EmptyString.

(** Modelled from the spec: [moqTemplate] is not among the sources. This
    stand-in renders what the spec's Rendered Document names first, the
    package clause and the import block, followed by one struct per
    contract with a function field per method. *)
Definition renderField (m : method) : option string :=
  match Arglist m, ReturnArglist m with
  | Ok args, Ok rets =>
      Some ("  " ++ meth_Name m ++ "Func func(" ++ args ++ ") " ++ rets ++ nl)
  | _, _ => None
  end.

Fixpoint renderFields (ms : list method) : option string :=
  match ms with
  | [] => Some ""
  | m :: rest =>
      match renderField m, renderFields rest with
      | Some a, Some b => Some (a ++ b)
      | _, _ => None
      end
  end.

Fixpoint renderObjects (os : list obj) : option string :=
  match os with
  | [] => Some ""
  | o :: rest =>
      match renderFields (moq.Methods o), renderObjects rest with
      | Some a, Some b =>
          Some ("type " ++ InterfaceName o ++ "Mock struct {" ++ nl ++ a ++ "}" ++ nl ++ b)
      | _, _ => None
      end
  end.

Definition sampleTemplate : Template :=
  fun d =>
    match renderObjects (Objects d) with
    | Some body =>
        Some ("package " ++ PackageName d ++ nl
              ++ "import (" ++ strings.Join (Imports d) " " ++ ")" ++ nl ++ body)
    | None => None
    end.

Definition storePkg : types.Package :=
  types.mkPackage "example.com/mod/store" "store".
Definition vendoredPkg : types.Package :=
  types.mkPackage "example.com/mod/vendor/example.org/pkg" "pkg".
Definition contextPkg : types.Package := types.mkPackage "context" "context".

(** A package reached through a vendor directory nested in another. *)
Definition nestedVendor : string := "a/vendor/b/vendor/vendor/c".
Definition nestedPkg : types.Package := types.mkPackage nestedVendor "c".

Definition tInt := types.Basic "int".
Definition tString := types.Basic "string".
Definition tError := types.Named None "error".
Definition tT := types.Named (Some storePkg) "T".
Definition tItem := types.Named (Some vendoredPkg) "Item".
Definition tContext := types.Named (Some contextPkg) "Context".

(** [Get(ctx context.Context, string)], returning a pointer to [pkg.Item]
    and an [error]. *)
Definition sigGet : types.Signature :=
  types.mkSignature
    [types.mkVar "ctx" tContext; types.mkVar "" tString]
    [types.mkVar "" (types.Pointer tItem); types.mkVar "" tError]
    false.

(** [Add(prefix []string, xs ...int) []string] *)
Definition sigAdd : types.Signature :=
  types.mkSignature
    [types.mkVar "prefix" (types.Slice tString); types.mkVar "xs" (types.Slice tInt)]
    [types.mkVar "" (types.Slice tString)]
    true.

(** [Use(x c.Thing)] *)
Definition sigUse : types.Signature :=
  types.mkSignature
    [types.mkVar "x" (types.Named (Some nestedPkg) "Thing")] [] false.

(** [Tag(names ...string) T], with [type T int] declared beside the interface. *)
Definition sigTag : types.Signature :=
  types.mkSignature
    [types.mkVar "names" (types.Slice tString)]
    [types.mkVar "" tT]
    true.

Definition iface (name : string) (ms : list types.Func) : string * types.Object :=
  (name, types.mkObject (types.Named (Some storePkg) name) (Some ms)).

Definition storeInfo : types.PackageInfo :=
  types.mkPackageInfo storePkg
    [ iface "Store" [types.mkFunc "Get" sigGet];
      iface "Adder" [types.mkFunc "Add" sigAdd];
      iface "Tagger" [types.mkFunc "Tag" sigTag];
      iface "Nested" [types.mkFunc "Use" sigUse];
      iface "Empty" [];
      ("T", types.mkObject tT None) ].

(** A GOPATH workspace holding the package [example.com/mod/store]; the
    command runs inside the package directory. [gen.go] is a generator
    script of package [main] that the build ignores and the parser does not. *)
Definition sampleWorld (order : list string -> list string) : World :=
  mkWorld
    (Some "/go/src/example.com/mod/store")
    "/go"
    (fun _ => Some [("store.go", "store"); ("gen.go", "main");
                    ("store_test.go", "store_test")])
    (fun pattern => Some ["/go/src/example.com/mod/store/store_mock.go"])
    (fun _ _ => Some (Some storeInfo))
    (Some sampleTemplate)
    []
    (fun text => Some text)
    order.

Definition forwards : list string -> list string := fun ks => ks.
Definition backwards : list string -> list string := @rev string.

Definition stdout : Writer := mkWriter [] false.

Definition staleMock : File :=
  mkFile "/go/src/example.com/mod/store/store_mock.go" false.
Definition lockedMock : File :=
  mkFile "/go/src/example.com/mod/store/store_mock.go" true.

(** The method [Get] as [Mock] describes it. *)
Definition getMethod : method :=
  mkMethod "Get"
    [mkParam "ctx" "context.Context" false; mkParam "in2" "string" false]
    [mkParam "out1" "*pkg.Item" false; mkParam "out2" "error" false].

Definition sourceFile : File :=
  mkFile "/go/src/example.com/mod/store/store.go" false.

Definition sampleMocker : Mocker :=
  mkMocker "." sampleTemplate "store" "example.com/mod/store" [].


(** The document of [Store] on a fresh receiver, and the receiver after it. *)
Definition storeRun : Result doc * Mocker :=
  mockDoc (sampleWorld forwards) storeInfo
    ["Store"] sampleMocker.

Definition storeDoc : doc :=
  match fst storeRun with
  | Ok d => d
  | _ => mkDoc "" [] []
  end.

(** The document of [Store] and [Empty] together. *)
Definition pairRun : Result doc * Mocker :=
  mockDoc (sampleWorld forwards) storeInfo ["Store"; "Empty"] sampleMocker.

Definition pairDoc : doc :=
  match fst pairRun with
  | Ok d => d
  | _ => mkDoc "" [] []
  end.

Definition nestedRun : Result doc * Mocker :=
  mockDoc (sampleWorld forwards) storeInfo ["Nested"] sampleMocker.

(** The descriptors of the one result of [Add]. *)
Definition addReturns : Result (list param) :=
  fst (extractArgs sigAdd (types.Results sigAdd) "out%d" sampleMocker).

(** The receiver [New] makes for the sample directory and the name [store]. *)
Definition newMocker : Mocker :=
  match New (sampleWorld forwards) "." "store" with
  | Ok m => m
  | _ => sampleMocker
  end.

(** A directory whose files outside the tests declare [store_test] only. *)
Definition testOnlyWorld : World :=
  mkWorld
    (Some "/go/src/example.com/mod/store") "/go"
    (fun _ => Some [("doc.go", "store_test"); ("store_test.go", "store_test")])
    (fun _ => Some []) (fun _ _ => None) (Some sampleTemplate) []
    (fun text => Some text) forwards.

Definition freshCall : Outcome :=
  Mock (sampleWorld forwards) sampleMocker stdout ["Empty"] [].

(** What a run of the command wrote. *)
Definition output (r : Result Outcome) : list string :=
  match r with
  | Ok o => written (writer o)
  | _ => []
  end.

Definition isNewline (c : ascii) : bool := Ascii.eqb c (Ascii.ascii_of_nat 10).

(** A string without a line break. *)
Fixpoint plain (s : string) : bool :=
  match s with
  | EmptyString => true
  | String c s' => negb (isNewline c) && plain s'
  end.

(** A path as a quoted string shows it: a line break becomes a backslash
    and [n]. *)
Fixpoint quoted (s : string) : string :=
  match s with
  | EmptyString => EmptyString
  | String c s' =>
      if isNewline c then String "\" (String "n" (quoted s'))
      else String c (quoted s')
  end.

Definition dquote : string := String (Ascii.ascii_of_nat 34) EmptyString.

Definition importLine (i : string) : string :=
  "import " ++ dquote ++ quoted i ++ dquote.

Fixpoint importLines (imports : list string) : string :=
  match imports with
  | [] => EmptyString
  | i :: rest => importLine i ++ nl ++ importLines rest
  end.

(** Modelled from the spec: [moqTemplate] is not among the sources. This
    stand-in renders what the spec's Rendered Document names: the package
    clause, the import block with one import line per entry of the import
    list, in the order of the list, and one struct per contract. *)
Definition lineTemplate : Template :=
  fun d =>
    match renderObjects (Objects d) with
    | Some body =>
        Some ("package " ++ PackageName d ++ nl ++ importLines (Imports d) ++ body)
    | None => None
    end.

(** A formatter that sorts the import lines, the one thing of
    [imports.Process] that the order of the import list hangs on: the
    first line stays, the lines that start with [import] follow in
    ascending order, then the other lines as they were. *)
Fixpoint linesFrom (cur s : string) : list string :=
  match s with
  | EmptyString => [cur]
  | String c s' =>
      if isNewline c then cur :: linesFrom EmptyString s'
      else linesFrom (cur ++ String c EmptyString) s'
  end.

Definition lines (s : string) : list string := linesFrom EmptyString s.

Definition isImportLine (l : string) : bool := String.prefix "import " l.

Fixpoint insertLine (x : string) (sorted : list string) : list string :=
  match sorted with
  | [] => [x]
  | h :: t => if String.leb x h then x :: sorted else h :: insertLine x t
  end.

Fixpoint sortLines (l : list string) : list string :=
  match l with
  | [] => []
  | x :: rest => insertLine x (sortLines rest)
  end.

Definition sortImports (text : string) : option string :=
  match lines text with
  | [] => Some text
  | first :: rest =>
      Some (strings.Join
              (first :: sortLines (List.filter isImportLine rest)
               ++ List.filter (fun l => negb (isImportLine l)) rest)%list
              nl)
  end.

Definition sortingWorld (order : list string -> list string) : World :=
  mkWorld
    (Getwd (sampleWorld order)) (GOPATH (sampleWorld order))
    (goFiles (sampleWorld order)) (Glob (sampleWorld order))
    (Load (sampleWorld order)) (Some lineTemplate) []
    sortImports order.

(** A package whose interface [Guard] has the method [Lock(l sync.Locker)],
    beside an interface without methods. *)
Definition syncPkg : types.Package := types.mkPackage "sync" "sync".

Definition sigLock : types.Signature :=
  types.mkSignature
    [types.mkVar "l" (types.Named (Some syncPkg) "Locker")] [] false.

Definition guardInfo : types.PackageInfo :=
  types.mkPackageInfo storePkg
    [ iface "Guard" [types.mkFunc "Lock" sigLock]; iface "Empty" [] ].

Definition guardWorld : World :=
  mkWorld
    (Getwd (sampleWorld forwards)) (GOPATH (sampleWorld forwards))
    (goFiles (sampleWorld forwards)) (Glob (sampleWorld forwards))
    (fun _ _ => Some (Some guardInfo)) (Some sampleTemplate) []
    (fun text => Some text) forwards.

(** A call for [Guard], then one for [Empty] on the same receiver. *)
Definition guardCall : Outcome :=
  Mock guardWorld sampleMocker stdout ["Guard"] [].
Definition emptyAfterGuard : Result doc * Mocker :=
  mockDoc guardWorld guardInfo ["Empty"] (mocker guardCall).

(** A package loaded by the relative path of the current directory, met
    while generating into another package. *)
Definition dotPkg : types.Package := types.mkPackage "." "store".
Definition otherMocker : Mocker :=
  mkMocker "." sampleTemplate "storetest" "example.com/mod/storetest" [].

End Examples.

(** ** What the descriptors of a signature must look like *)

Module Spec.
Import moq.

(** The receiver after a call: every field but [imports] is the same,
    and [imports] has lost nothing. *)
Definition grows (m m' : Mocker) : Prop :=
  src m' = src m /\ tmpl m' = tmpl m /\ pkgName m' = pkgName m
  /\ m_pkgPath m' = m_pkgPath m /\ incl (imports m) (imports m').

(** The name a parameter at 1-based position [k] gets. *)
Definition nameAt (prefix : string) (k : nat) (v : types.Var) : string :=
  if String.eqb (types.VarName v) "" then prefix ++ decimal k
  else types.VarName v.

(** [ps] describes [vars], the tail from index [ii] of a tuple of
    [listLen] parameters of [sig]: names by position, and a variadic flag
    only on a last parameter of a variadic signature whose type text
    starts with [[]]. *)
Fixpoint extracted (sig : types.Signature) (listLen : nat) (prefix : string)
    (ii : nat) (vars : list types.Var) (ps : list param) : Prop :=
  match vars, ps with
  | [], [] => True
  | v :: vars', p :: ps' =>
      par_Name p = nameAt prefix (ii + 1) v
      /\ (par_Variadic p = true ->
          types.Variadic sig = true /\ ii = listLen - 1
          /\ strings.HasPrefix (par_Type p) "[]" = true)
      /\ extracted sig listLen prefix (ii + 1) vars' ps'
  | _, _ => False
  end.

Definition methodOf (f : types.Func) (mt : method) : Prop :=
  let sig := types.FuncType f in
  meth_Name mt = types.FuncName f
  /\ extracted sig (List.length (types.Params sig)) "in" 0
       (types.Params sig) (meth_Params mt)
  /\ extracted sig (List.length (types.Results sig)) "out" 0
       (types.Results sig) (meth_Returns mt).

(** The completed method set of the interface [n] names in [tpkg], if it
    names one. *)
Definition interfaceMethods (tpkg : types.PackageInfo) (n : string)
  : option (list types.Func) :=
  match types.Lookup (types.Scope tpkg) n with
  | Some iface => types.Methods iface
  | None => None
  end.

Definition objOf (tpkg : types.PackageInfo) (n : string) (o : obj) : Prop :=
  InterfaceName o = n
  /\ exists meths, interfaceMethods tpkg n = Some meths
                 /\ Forall2 methodOf meths (moq.Methods o).

Definition hasMethods (o : obj) : bool :=
  match moq.Methods o with [] => false | _ :: _ => true end.

(** A run's [range] visits every key of the map once. *)
Definition fair (W : World) : Prop :=
  forall keys, Permutation (rangeKeys W keys) keys.

(** Two runs read the same platform and constants; only the order in
    which each visits its maps may differ. *)
Definition sameInputs (W1 W2 : World) : Prop :=
  Getwd W1 = Getwd W2 /\ GOPATH W1 = GOPATH W2 /\ goFiles W1 = goFiles W2
  /\ Glob W1 = Glob W2 /\ Load W1 = Load W2
  /\ moqTemplate W1 = moqTemplate W2 /\ moqImports W1 = moqImports W2
  /\ Process W1 = Process W2.

Definition nonTest (pkgName : string) : bool :=
  negb (strings.Contains pkgName "_test").

(** The package name does not hang on the order of the parsed packages:
    it is given, or at most one parsed package has a name without [_test]. *)
Definition packageNameDetermined (W : World) (src packageName : string) : Prop :=
  packageName <> ""
  \/ forall pkgs, ParseDir W src noTestFiles = Some pkgs ->
       List.length (List.filter nonTest pkgs) <= 1.

(** Template and formatter together do not depend on the order of the
    document's import list (the formatter sorts the import block). *)
Definition orderBlind (W : World) : Prop :=
  forall t d1 d2,
    moqTemplate W = Some t ->
    PackageName d1 = PackageName d2 -> Objects d1 = Objects d2 ->
    Permutation (Imports d1) (Imports d2) ->
    option_map (Process W) (t d1) = option_map (Process W) (t d2).

End Spec.

(** ** The packages a signature mentions *)

Module Cover.
Import moq.

(** The packages of the named types met in [t], in the order
    [types.TypeString] asks the qualifier about them. *)
Fixpoint packagesOf (t : types.Type_) : list types.Package :=
  match t with
  | types.Basic _ => []
  | types.Named None _ => []
  | types.Named (Some pkg) _ => [pkg]
  | types.Pointer base => packagesOf base
  | types.Slice elem => packagesOf elem
  | types.Array _ elem => packagesOf elem
  | types.Map key elem => (packagesOf key ++ packagesOf elem)%list
  | types.Chan _ elem => packagesOf elem
  end.

Definition packagesOfVars (vars : list types.Var) : list types.Package :=
  flat_map (fun v => packagesOf (types.VarType v)) vars.

Definition packagesOfFunc (f : types.Func) : list types.Package :=
  (packagesOfVars (types.Params (types.FuncType f))
   ++ packagesOfVars (types.Results (types.FuncType f)))%list.

(** The methods of the requested interfaces, in request order. *)
Definition requestedFuncs (tpkg : types.PackageInfo) (name : list string)
  : list types.Func :=
  flat_map (fun n => match Spec.interfaceMethods tpkg n with
                     | Some meths => meths
                     | None => []
                     end) name.

(** A package is foreign to the receiver when its identity differs from
    the receiver's; [importOf] is the path recorded for it. *)
Definition foreign (m : Mocker) (pkg : types.Package) : bool :=
  negb (String.eqb (path.Join [path.Dir (types.Path pkg); types.Name pkg])
          (m_pkgPath m)).

Definition importOf (m : Mocker) (pkg : types.Package) : string :=
  if String.eqb (types.Path pkg) "." then m_pkgPath m else types.Path pkg.

(** From [m] to [m'] the identity is kept and the import set has gained
    the paths of the foreign packages among [pkgs], and nothing else. *)
Definition adds (pkgs : list types.Package) (m m' : Mocker) : Prop :=
  m_pkgPath m' = m_pkgPath m
  /\ forall p,
       In p (imports m') <->
       In p (imports m)
       \/ exists pkg, In pkg pkgs /\ foreign m pkg = true /\ p = importOf m pkg.

End Cover.

(** ** Facts about the string and path helpers *)

Section StringFacts.

Lemma append_assoc' (a b c : string) : (a ++ b) ++ c = a ++ (b ++ c).
Proof. induction a as [|x a IH]; simpl; [reflexivity | now rewrite IH]. Qed.

Lemma append_nil_r' (a : string) : a ++ "" = a.
Proof. induction a as [|x a IH]; simpl; [reflexivity | now rewrite IH]. Qed.

Lemma length_append' (a b : string) :
  String.length (a ++ b) = String.length a + String.length b.
Proof. induction a as [|x a IH]; simpl; [reflexivity | now rewrite IH]. Qed.

Lemma prefix_nil (s : string) : String.prefix "" s = true.
Proof. now destruct s. Qed.

Lemma prefix_app_self (s b : string) : String.prefix s (s ++ b) = true.
Proof.
  induction s as [|x s IH]; simpl; [apply prefix_nil|].
  destruct (ascii_dec x x) as [_|ne]; [exact IH | now elim ne].
Qed.

Lemma prefix_app_long (sep x y : string) :
  String.length sep <= String.length x ->
  String.prefix sep (x ++ y) = String.prefix sep x.
Proof.
  revert x; induction sep as [|c sep IH]; intros x Hlen.
  - now rewrite !prefix_nil.
  - destruct x as [|d x]; simpl in *; [lia|].
    destruct (ascii_dec c d); [apply IH; lia | reflexivity].
Qed.

Lemma take_app_length (a x : string) : strings.take (String.length a) (a ++ x) = a.
Proof. induction a as [|c a IH]; simpl; [now destruct x | now rewrite IH]. Qed.

Lemma drop_app_length (a x : string) (n : nat) :
  strings.drop (String.length a + n) (a ++ x) = strings.drop n x.
Proof. induction a as [|c a IH]; simpl; [reflexivity | exact IH]. Qed.

Lemma Index_None_tail (c : ascii) (s sep : string) :
  strings.Index (String c s) sep = None -> strings.Index s sep = None.
Proof.
  cbn [strings.Index].
  destruct (String.prefix sep (String c s)); [discriminate|].
  now destruct (strings.Index s sep).
Qed.

Lemma Contains_false_Index (s sep : string) :
  strings.Contains s sep = false <-> strings.Index s sep = None.
Proof.
  unfold strings.Contains. destruct (strings.Index s sep); split; congruence.
Qed.

Lemma Index_at_prefix (s sep : string) :
  String.prefix sep s = true -> strings.Index s sep = Some 0.
Proof. intros H. destruct s; cbn [strings.Index]; now rewrite H. Qed.

Lemma Index_skip (c : ascii) (s sep : string) (n : nat) :
  String.prefix sep (String c s) = false ->
  strings.Index s sep = Some n ->
  strings.Index (String c s) sep = Some (S n).
Proof. intros Hp Hi. cbn [strings.Index]. now rewrite Hp, Hi. Qed.

(** The first instance of [pre ++ t] in [a ++ pre ++ t ++ b] is the one
    shown when none starts inside [a]. *)
Lemma Index_app_first (pre : string) (t : ascii) (a b : string) :
  strings.Contains (a ++ pre) (pre ++ String t "") = false ->
  strings.Index (a ++ (pre ++ String t "") ++ b) (pre ++ String t "")
  = Some (String.length a).
Proof.
  set (sep := pre ++ String t "").
  induction a as [|c a IH]; intros Hno.
  - apply Index_at_prefix. exact (prefix_app_self sep b).
  - apply Contains_false_Index in Hno.
    change (String c a ++ pre) with (String c (a ++ pre)) in Hno.
    assert (Hpre : String.prefix sep (String c (a ++ pre)) = false).
    { cbn [strings.Index] in Hno.
      destruct (String.prefix sep (String c (a ++ pre))); [discriminate | reflexivity]. }
    apply Index_None_tail in Hno. apply Contains_false_Index in Hno.
    specialize (IH Hno).
    change (String c a ++ sep ++ b) with (String c (a ++ sep ++ b)).
    apply Index_skip; [|exact IH].
    rewrite <- Hpre.
    replace (String c (a ++ sep ++ b))
      with (String c (a ++ pre) ++ (String t "" ++ b)).
    + apply prefix_app_long. unfold sep.
      cbn [String.length]. rewrite !length_append'. simpl. lia.
    + unfold sep. cbn [String.append]. now rewrite !append_assoc'.
Qed.

Lemma genSplit_None (n : nat) (s sep : string) :
  strings.Index s sep = None -> strings.genSplit n s sep = [s].
Proof. intros H. destruct n; simpl; [reflexivity | now rewrite H]. Qed.

Lemma TrimLeft_id (s cutset : string) :
  strings.TrimLeft s cutset = s \/
  exists c rest, s = String c rest /\ strings.inCutset c cutset = true.
Proof.
  destruct s as [|c s]; [now left|]. simpl.
  destruct (strings.inCutset c cutset) eqn:E; [right; eauto | now left].
Qed.

Lemma HasPrefix_slash (c : ascii) (rest : string) :
  strings.inCutset c "/" = true -> strings.HasPrefix (String c rest) "/" = true.
Proof.
  intros H. cbn [strings.inCutset] in H. rewrite orb_false_r in H.
  apply Ascii.eqb_eq in H. subst c.
  unfold strings.HasPrefix. cbn [String.prefix].
  destruct (ascii_dec "/" "/"); [apply prefix_nil | congruence].
Qed.

End StringFacts.

(** ** stripVendorPath *)

Section VendorFacts.

Lemma genSplit_one (n m : nat) (s sep : string) :
  strings.Index s sep = Some m ->
  strings.Index (strings.drop (m + String.length sep) s) sep = None ->
  strings.genSplit (S n) s sep
  = [strings.take m s; strings.drop (m + String.length sep) s].
Proof.
  intros H1 H2. cbn [strings.genSplit]. rewrite H1.
  now rewrite (genSplit_None n _ _ H2).
Qed.

Lemma Split_no_marker (p : string) :
  strings.Contains p "/vendor/" = false -> strings.Split p "/vendor/" = [p].
Proof.
  intros H. apply Contains_false_Index in H.
  unfold strings.Split. now apply genSplit_None.
Qed.

Lemma Split_one_marker (a b : string) :
  strings.Contains (a ++ "/vendor") "/vendor/" = false ->
  strings.Contains b "/vendor/" = false ->
  strings.Split (a ++ "/vendor/" ++ b) "/vendor/" = [a; b].
Proof.
  intros Ha Hb.
  pose proof (Index_app_first "/vendor" "/" a b Ha) as Hidx.
  change ("/vendor" ++ String "/" "") with "/vendor/" in Hidx.
  apply Contains_false_Index in Hb.
  assert (Hdrop : strings.drop (String.length a + String.length "/vendor/")
                    (a ++ "/vendor/" ++ b) = b).
  { rewrite drop_app_length. reflexivity. }
  unfold strings.Split.
  destruct (String.length (a ++ "/vendor/" ++ b)) as [|n] eqn:Hlen.
  { rewrite !length_append' in Hlen. simpl in Hlen. lia. }
  rewrite (genSplit_one n (String.length a)); [| exact Hidx | now rewrite Hdrop].
  now rewrite take_app_length, Hdrop.
Qed.

(** A path without a vendor marker is returned as it is. *)
Lemma stripVendorPath_no_marker (p : string) :
  strings.Contains p "/vendor/" = false -> moq.stripVendorPath p = p.
Proof.
  intros H. unfold moq.stripVendorPath.
  now rewrite Split_no_marker.
Qed.

Lemma Clean_nonempty (b : string) : path.Clean b = b -> b <> "".
Proof. intros H E. subst b. discriminate H. Qed.

Lemma stripVendorPath_one_marker (a b : string) :
  strings.Contains (a ++ "/vendor") "/vendor/" = false ->
  strings.Contains b "/vendor/" = false ->
  path.Clean b = b ->
  strings.HasPrefix b "/" = false ->
  moq.stripVendorPath (a ++ "/vendor/" ++ b) = b.
Proof.
  intros Ha Hb Hclean Hrel.
  unfold moq.stripVendorPath. rewrite (Split_one_marker a b Ha Hb).
  cbn [List.length Nat.eqb tl path.Join].
  pose proof (Clean_nonempty b Hclean) as Hne.
  destruct (String.eqb b "") eqn:E; [apply String.eqb_eq in E; contradiction|].
  cbn [strings.Join]. rewrite Hclean.
  destruct (TrimLeft_id b "/") as [-> | (c & rest & -> & Hc)]; [reflexivity|].
  now rewrite (HasPrefix_slash c rest Hc) in Hrel.
Qed.

End VendorFacts.

(** ** Signature extraction *)

Section ExtractFacts.
Import moq Spec.

Lemma grows_refl (m : Mocker) : grows m m.
Proof. unfold grows; repeat split; auto using incl_refl. Qed.

Lemma grows_trans (a b c : Mocker) : grows a b -> grows b c -> grows a c.
Proof.
  unfold grows. intros (?&?&?&?&?) (?&?&?&?&?).
  repeat split; try congruence. eapply incl_tran; eauto.
Qed.

Lemma record_In (p q : string) (l : list string) :
  In q (record p l) <-> q = p \/ In q l.
Proof.
  unfold record. destruct (existsb (String.eqb p) l) eqn:E.
  - split; [auto|]. intros [->|H]; [|exact H].
    apply existsb_exists in E. destruct E as (x & Hx & Heq).
    apply String.eqb_eq in Heq. now subst x.
  - rewrite in_app_iff. simpl. intuition congruence.
Qed.

Lemma packageQualifier_grows (pkg : types.Package) (m : Mocker) :
  grows m (snd (packageQualifier pkg m)).
Proof.
  unfold packageQualifier.
  destruct (String.eqb _ (m_pkgPath m)); simpl; [apply grows_refl|].
  unfold grows; simpl. repeat split; auto.
  intros q Hq. apply record_In. now right.
Qed.

Lemma TypeString_grows (t : types.Type_) (m : Mocker) :
  grows m (snd (types.TypeString packageQualifier t m)).
Proof.
  revert m. induction t as [n|pkg n|b IH|e IH|len e IH|k IHk e IHe|d e IH]; intros m; simpl.
  - apply grows_refl.
  - destruct pkg as [pkg|]; [|apply grows_refl].
    unfold types.writePackage.
    pose proof (packageQualifier_grows pkg m) as H.
    destruct (packageQualifier pkg m); exact H.
  - specialize (IH m). destruct (types.TypeString _ b m); exact IH.
  - specialize (IH m). destruct (types.TypeString _ e m); exact IH.
  - specialize (IH m). destruct (types.TypeString _ e m); exact IH.
  - specialize (IHk m). destruct (types.TypeString _ k m) as [sk m1].
    specialize (IHe m1). destruct (types.TypeString _ e m1) as [se m2].
    simpl in *. eapply grows_trans; eauto.
  - specialize (IH m). destruct (types.TypeString _ e m); exact IH.
Qed.

Lemma bind_Ok {A B} (c : M A) (k : A -> M B) (m m' : Mocker) (b : B) :
  bind c k m = (Ok b, m') ->
  exists a m1, c m = (Ok a, m1) /\ k a m1 = (Ok b, m').
Proof.
  unfold bind. destruct (c m) as [[a|e|] m1]; intros H; try discriminate.
  eauto.
Qed.

Lemma lift_Ok {A} (c : Mocker -> A * Mocker) (m m' : Mocker) (a : A) :
  lift c m = (Ok a, m') -> c m = (a, m').
Proof. unfold lift. destruct (c m). congruence. Qed.

Lemma Sprintf_in (k : nat) : Sprintf "in%d" k = "in" ++ decimal k.
Proof.
  cbn [Sprintf]. unfold strings.HasPrefix.
  change (String.prefix "%d" "in%d") with false.
  change (String.prefix "%d" "n%d") with false.
  change (String.prefix "%d" "%d") with true.
  cbv iota. cbn [strings.drop]. now rewrite append_nil_r'.
Qed.

Lemma Sprintf_out (k : nat) : Sprintf "out%d" k = "out" ++ decimal k.
Proof.
  cbn [Sprintf]. unfold strings.HasPrefix.
  change (String.prefix "%d" "out%d") with false.
  change (String.prefix "%d" "ut%d") with false.
  change (String.prefix "%d" "t%d") with false.
  change (String.prefix "%d" "%d") with true.
  cbv iota. cbn [strings.drop]. now rewrite append_nil_r'.
Qed.

Lemma slice_brackets (s pre : string) :
  strings.slice s 0 2 = Some pre -> String.eqb pre "[]" = true ->
  strings.HasPrefix s "[]" = true.
Proof.
  intros Hs He. apply String.eqb_eq in He. subst pre.
  destruct s as [|a [|b rest]]; try discriminate Hs.
  unfold strings.slice in Hs. simpl in Hs. injection Hs as -> ->.
  unfold strings.HasPrefix. cbn [String.prefix].
  destruct (ascii_dec "[" "["); [|congruence].
  destruct (ascii_dec "]" "]"); [apply prefix_nil | congruence].
Qed.

(** The flag computed by [extractArgs] for the parameter at index [ii]. *)
Lemma variadic_flag (sig : types.Signature) (listLen ii : nat) (typename : string)
    (m m' : Mocker) (variadic : bool) :
  (if types.Variadic sig && Nat.eqb ii (listLen - 1)
   then match strings.slice typename 0 2 with
        | Some pre => ret (String.eqb pre "[]")
        | None => panic
        end
   else ret false) m = (Ok variadic, m') ->
  m' = m /\
  (variadic = true ->
   types.Variadic sig = true /\ ii = listLen - 1
   /\ strings.HasPrefix typename "[]" = true).
Proof.
  destruct (types.Variadic sig && Nat.eqb ii (listLen - 1)) eqn:C.
  - apply andb_prop in C. destruct C as [Cv Ci]. apply Nat.eqb_eq in Ci.
    destruct (strings.slice typename 0 2) as [pre|] eqn:Hs;
      unfold ret, panic; intros H; [|discriminate].
    injection H as <- <-. split; [reflexivity|].
    intros Hv. repeat split; auto. eapply slice_brackets; eauto.
  - unfold ret. intros H. injection H as <- <-. split; [reflexivity|].
    discriminate.
Qed.

Lemma extractArgsFrom_spec (sig : types.Signature) (listLen : nat)
    (nameFormat prefix : string) :
  (forall k, Sprintf nameFormat k = prefix ++ decimal k) ->
  forall rest ii params m ps m',
    extractArgsFrom sig listLen nameFormat ii rest params m = (Ok ps, m') ->
    exists new, ps = (params ++ new)%list
                /\ extracted sig listLen prefix ii rest new
                /\ grows m m'.
Proof.
  intros Hfmt. induction rest as [|p rest IH]; intros ii params m ps m' H.
  - cbn [extractArgsFrom] in H. unfold ret in H. injection H as <- <-.
    exists []. rewrite app_nil_r. repeat split. apply grows_refl.
  - cbn [extractArgsFrom] in H.
    apply bind_Ok in H. destruct H as (typename & m1 & Ht & H).
    apply lift_Ok in Ht.
    apply bind_Ok in H. destruct H as (variadic & m2 & Hv & H).
    apply variadic_flag in Hv. destruct Hv as [-> Hv].
    apply IH in H. destruct H as (new & -> & Hnew & Hg).
    eexists (_ :: new). rewrite <- app_assoc. split; [reflexivity|].
    split.
    + cbn [extracted par_Name par_Variadic par_Type]. split; [|split; assumption].
      unfold nameAt. rewrite Hfmt. reflexivity.
    + eapply grows_trans; [|exact Hg].
      pose proof (TypeString_grows (types.VarType p) m) as G.
      now rewrite Ht in G.
Qed.

Lemma extractArgs_spec (sig : types.Signature) (vars : list types.Var)
    (nameFormat prefix : string) (m m' : Mocker) (ps : list param) :
  (forall k, Sprintf nameFormat k = prefix ++ decimal k) ->
  extractArgs sig vars nameFormat m = (Ok ps, m') ->
  extracted sig (List.length vars) prefix 0 vars ps /\ grows m m'.
Proof.
  intros Hfmt H. unfold extractArgs in H.
  destruct (extractArgsFrom_spec sig _ _ _ Hfmt _ _ _ _ _ _ H) as (new & -> & He & Hg).
  now split.
Qed.

(** [extracted], read position by position. *)
Lemma extracted_nth (sig : types.Signature) (listLen : nat) (prefix : string) :
  forall vars ps ii,
    extracted sig listLen prefix ii vars ps ->
    List.length ps = List.length vars
    /\ forall k v p,
         nth_error vars k = Some v -> nth_error ps k = Some p ->
         par_Name p = nameAt prefix (ii + k + 1) v
         /\ (par_Variadic p = true ->
             types.Variadic sig = true /\ ii + k = listLen - 1
             /\ strings.HasPrefix (par_Type p) "[]" = true).
Proof.
  induction vars as [|v vars IH]; intros [|p ps] ii H; simpl in H; try contradiction.
  - split; [reflexivity|]. intros [|k] ? ? Hk; discriminate Hk.
  - destruct H as (Hn & Hv & Hrest). apply IH in Hrest.
    destruct Hrest as [Hlen Hnth]. split; [simpl; congruence|].
    intros [|k] v' p' Hv' Hp'; simpl in Hv', Hp'.
    + injection Hv' as <-. injection Hp' as <-.
      rewrite Nat.add_0_r. split; [exact Hn|]. exact Hv.
    + specialize (Hnth k v' p' Hv' Hp').
      replace (ii + S k) with (ii + 1 + k) by lia. exact Hnth.
Qed.

End ExtractFacts.

(** ** The loops of Mock *)

Section MockFacts.
Import moq Spec.

Lemma mockMethods_spec :
  forall meths methods b m ms b' m',
    mockMethods meths methods b m = (Ok (ms, b'), m') ->
    exists new, ms = (methods ++ new)%list
                /\ Forall2 methodOf meths new
                /\ grows m m'
                /\ b' = match meths with [] => b | _ :: _ => true end
                /\ (meths = [] -> m' = m).
Proof.
  induction meths as [|meth meths IH]; intros methods b m ms b' m' H.
  - cbn [mockMethods] in H. unfold ret in H. injection H as <- <- <-.
    exists []. rewrite app_nil_r.
    split; [reflexivity|]. split; [constructor|]. split; [apply grows_refl|].
    split; reflexivity.
  - cbn [mockMethods] in H.
    apply bind_Ok in H. destruct H as (Params & m1 & Hp & H).
    apply bind_Ok in H. destruct H as (Returns & m2 & Hr & H).
    apply (extractArgs_spec _ _ _ "in" _ _ _ Sprintf_in) in Hp.
    apply (extractArgs_spec _ _ _ "out" _ _ _ Sprintf_out) in Hr.
    destruct Hp as [Hp G1]. destruct Hr as [Hr G2].
    apply IH in H. destruct H as (new & -> & Hnew & G3 & Hb & _).
    eexists (_ :: new). rewrite <- app_assoc. split; [reflexivity|].
    split; [|split; [|split]].
    + constructor; [|exact Hnew]. unfold methodOf. simpl. auto.
    + eauto using grows_trans.
    + destruct meths; subst; reflexivity.
    + discriminate.
Qed.

Lemma mockNames_spec (tpkg : types.PackageInfo) :
  forall name objects b m objs b' m',
    mockNames tpkg name objects b m = (Ok (objs, b'), m') ->
    exists new, objs = (objects ++ new)%list
                /\ Forall2 (objOf tpkg) name new
                /\ grows m m'
                /\ b' = b || existsb hasMethods new
                /\ (b' = false -> m' = m).
Proof.
  induction name as [|n name IH]; intros objects b m objs b' m' H.
  - cbn [mockNames] in H. unfold ret in H. injection H as <- <- <-.
    exists []. rewrite app_nil_r. cbn [existsb]. rewrite orb_false_r.
    split; [reflexivity|]. split; [constructor|]. split; [apply grows_refl|].
    split; reflexivity.
  - cbn [mockNames] in H.
    destruct (types.Lookup (types.Scope tpkg) n) as [iface|] eqn:Hl;
      [|discriminate H].
    destruct (types.Methods iface) as [meths|] eqn:Hm; [|discriminate H].
    apply bind_Ok in H. destruct H as ([ms b1] & m1 & Hms & H).
    apply mockMethods_spec in Hms.
    destruct Hms as (newm & Hnewm & Hall & G1 & Hb1 & Hsame).
    simpl in Hnewm. subst ms.
    apply IH in H. destruct H as (new & -> & Hnew & G2 & Hb' & Hsame').
    cbn [fst snd] in *.
    eexists (_ :: new). rewrite <- app_assoc. split; [reflexivity|].
    assert (Hflag : b1 = b || hasMethods (mkObj n newm)).
    { unfold hasMethods. cbn [moq.Methods].
      inversion Hall; subst; [now rewrite orb_false_r | now rewrite orb_true_r]. }
    split; [|split; [|split]].
    + constructor; [|exact Hnew]. split; [reflexivity|].
      exists meths. split; [|exact Hall].
      unfold interfaceMethods. now rewrite Hl.
    + eauto using grows_trans.
    + rewrite Hb', Hflag. cbn [existsb]. now rewrite orb_assoc.
    + intros Hf. rewrite Hf in Hb'. symmetry in Hb'.
      apply orb_false_elim in Hb'. destruct Hb' as [Hb1f _].
      rewrite Hsame' by exact Hf. apply Hsame.
      rewrite Hb1f in Hb1. destruct meths; [reflexivity | discriminate].
Qed.

(** The document [Mock] hands to the template. *)
Lemma mockDoc_spec (W : World) (tpkg : types.PackageInfo) (name : list string)
    (m m' : Mocker) (d : doc) :
  mockDoc W tpkg name m = (Ok d, m') ->
  PackageName d = pkgName m
  /\ Forall2 (objOf tpkg) name (Objects d)
  /\ grows m m'
  /\ Imports d
     = (moqImports W
        ++ (if existsb hasMethods (Objects d) then ["sync"] else [])
        ++ map stripVendorPath (rangeKeys W (imports m')))%list
  /\ (existsb hasMethods (Objects d) = false -> m' = m).
Proof.
  unfold mockDoc. intros H.
  apply bind_Ok in H. destruct H as ([objs b] & m1 & Hn & H).
  injection H as <- <-.
  apply mockNames_spec in Hn.
  destruct Hn as (new & Hobjs & Hall & G & Hb & Hsame).
  simpl in Hobjs, Hb. subst objs. cbn [PackageName Objects Imports fst snd].
  split; [reflexivity|]. split; [exact Hall|]. split; [exact G|]. split.
  - rewrite <- Hb. destruct b; [now rewrite <- app_assoc | reflexivity].
  - intros Hf. apply Hsame. now rewrite Hb.
Qed.

End MockFacts.

(** ** Parameter names *)

Section Names.
Import moq Spec.

Lemma Forall2_nth_error {A B} (R : A -> B -> Prop) (l : list A) (l' : list B) :
  Forall2 R l l' ->
  forall i x, nth_error l i = Some x ->
  exists y, nth_error l' i = Some y /\ R x y.
Proof.
  induction 1 as [|a b l l' Hab _ IH]; intros [|i] x Hx; try discriminate.
  - injection Hx as <-. exists b. now split.
  - apply IH in Hx. exact Hx.
Qed.

Lemma nth_error_same_length {A B} (l : list A) (l' : list B) (k : nat) (x : A) :
  List.length l' = List.length l -> nth_error l k = Some x ->
  exists y, nth_error l' k = Some y.
Proof.
  intros Hlen Hx.
  assert (Hk : k < List.length l') by (rewrite Hlen; apply nth_error_Some; congruence).
  destruct (nth_error l' k) as [y|] eqn:E; [eauto|].
  apply nth_error_None in E. lia.
Qed.

Lemma extracted_names (sig : types.Signature) (prefix : string)
    (vars : list types.Var) (ps : list param) :
  extracted sig (List.length vars) prefix 0 vars ps ->
  List.length ps = List.length vars
  /\ forall k v, nth_error vars k = Some v ->
       exists p, nth_error ps k = Some p
                 /\ par_Name p = nameAt prefix (k + 1) v.
Proof.
  intros H. apply extracted_nth in H. destruct H as [Hlen Hnth].
  split; [exact Hlen|]. intros k v Hv.
  destruct (nth_error_same_length vars ps k v Hlen Hv) as [p Hp].
  exists p. split; [exact Hp|]. now destruct (Hnth k v p Hv Hp).
Qed.

End Names.

(** C2: for every method of a requested interface, the descriptor of the
    k-th input (1-based) is named [in<k>] when the source gives no name,
    that of the k-th output [out<k>], and a parameter with a name keeps it;
    the descriptors follow the declaration position by position. *)
Theorem Mock_names_parameters_by_position
    (W : moq.World) (tpkg : types.PackageInfo) (name : list string)
    (m m' : moq.Mocker) (d : moq.doc)
    (i j : nat) (n : string) (meths : list types.Func) (f : types.Func) :
  moq.mockDoc W tpkg name m = (moq.Ok d, m') ->
  nth_error name i = Some n ->
  Spec.interfaceMethods tpkg n = Some meths ->
  nth_error meths j = Some f ->
  exists o mt,
    nth_error (moq.Objects d) i = Some o
    /\ nth_error (moq.Methods o) j = Some mt
    /\ moq.meth_Name mt = types.FuncName f
    /\ (forall k v,
          nth_error (types.Params (types.FuncType f)) k = Some v ->
          exists p, nth_error (moq.meth_Params mt) k = Some p
                    /\ moq.par_Name p
                       = if String.eqb (types.VarName v) ""
                         then "in" ++ decimal (k + 1) else types.VarName v)
    /\ (forall k v,
          nth_error (types.Results (types.FuncType f)) k = Some v ->
          exists p, nth_error (moq.meth_Returns mt) k = Some p
                    /\ moq.par_Name p
                       = if String.eqb (types.VarName v) ""
                         then "out" ++ decimal (k + 1) else types.VarName v).
Proof.
  intros Hdoc Hn Hmeths Hf.
  apply mockDoc_spec in Hdoc. destruct Hdoc as (_ & Hobjs & _).
  destruct (Forall2_nth_error _ _ _ Hobjs i n Hn) as (o & Ho & _ & meths' & Hm' & Hall).
  rewrite Hmeths in Hm'. injection Hm' as <-.
  destruct (Forall2_nth_error _ _ _ Hall j f Hf) as (mt & Hmt & Hname & Hin & Hout).
  exists o, mt. repeat (split; [assumption|]).
  apply extracted_names in Hin. apply extracted_names in Hout.
  split; [apply Hin | apply Hout].
Qed.

(** The names of [Get(ctx context.Context, string)]: [ctx], [in2], and the
    results [out1], [out2]. *)
Lemma Mock_names_parameters_witness :
  exists o mt,
    nth_error (moq.Objects Examples.storeDoc) 0 = Some o
    /\ nth_error (moq.Methods o) 0 = Some mt
    /\ moq.meth_Name mt = "Get"
    /\ (forall k v,
          nth_error (types.Params Examples.sigGet) k = Some v ->
          exists p, nth_error (moq.meth_Params mt) k = Some p
                    /\ moq.par_Name p
                       = if String.eqb (types.VarName v) ""
                         then "in" ++ decimal (k + 1) else types.VarName v)
    /\ (forall k v,
          nth_error (types.Results Examples.sigGet) k = Some v ->
          exists p, nth_error (moq.meth_Returns mt) k = Some p
                    /\ moq.par_Name p
                       = if String.eqb (types.VarName v) ""
                         then "out" ++ decimal (k + 1) else types.VarName v).
Proof.
  apply (Mock_names_parameters_by_position
           (Examples.sampleWorld Examples.forwards) Examples.storeInfo ["Store"]
           Examples.sampleMocker (snd Examples.storeRun) Examples.storeDoc 0 0 "Store"
           [types.mkFunc "Get" Examples.sigGet] (types.mkFunc "Get" Examples.sigGet));
    reflexivity.
Defined.

(** ** The variadic flag *)

Section Variadic.
Import moq Spec.

(** The flag is set only on the last descriptor of a tuple of a variadic
    signature, and only when the type text starts with [[]]. *)
Lemma extractArgs_variadic_only_last (sig : types.Signature)
    (vars : list types.Var) (nameFormat prefix : string)
    (m m' : Mocker) (ps : list param) (k : nat) (p : param) :
  (forall i, Sprintf nameFormat i = prefix ++ decimal i) ->
  extractArgs sig vars nameFormat m = (Ok ps, m') ->
  nth_error ps k = Some p ->
  par_Variadic p = true ->
  types.Variadic sig = true /\ k = List.length vars - 1
  /\ strings.HasPrefix (par_Type p) "[]" = true.
Proof.
  intros Hfmt H Hp Hv.
  apply (extractArgs_spec _ _ _ prefix _ _ _ Hfmt) in H. destruct H as [H _].
  apply extracted_nth in H. destruct H as [Hlen Hnth].
  destruct (nth_error_same_length ps vars k p (eq_sym Hlen) Hp) as [v Hvar].
  destruct (Hnth k v p Hvar Hp) as [_ Hflag]. apply Hflag in Hv.
  exact Hv.
Qed.

End Variadic.

(** C1: the flag is computed the same way for the results of a method as
    for its inputs. On [Add(prefix []string, xs ...int) []string] the
    descriptor of the result carries the variadic flag, and the return list
    of the method is rendered with an ellipsis. The non-final input
    [prefix], of slice type too, is not flagged. *)
Example extractArgs_flags_result_of_variadic_method :
  Examples.addReturns = moq.Ok [moq.mkParam "out1" "[]string" true]
  /\ moq.ReturnArglist
       (moq.mkMethod "Add" [] [moq.mkParam "out1" "[]string" true])
     = moq.Ok "...string"
  /\ fst (moq.extractArgs Examples.sigAdd (types.Params Examples.sigAdd) "in%d"
            Examples.sampleMocker)
     = moq.Ok [moq.mkParam "prefix" "[]string" false;
               moq.mkParam "xs" "[]int" true].
Proof. repeat split; reflexivity. Qed.

(** C10: on [Tag(names ...string) T], with [T] declared in the package the
    mock is generated into, the type text of the result is the one byte
    [T]; [typename[0:2]] is evaluated for it and panics, and so does the
    call of [Mock] that asked for the interface. *)
Example extractArgs_panics_on_short_result_type :
  fst (types.TypeString moq.packageQualifier Examples.tT Examples.sampleMocker) = "T"
  /\ strings.slice "T" 0 2 = None
  /\ fst (moq.extractArgs Examples.sigTag (types.Results Examples.sigTag) "out%d"
            Examples.sampleMocker)
     = moq.Panic
  /\ moq.result (moq.Mock (Examples.sampleWorld Examples.forwards)
                   Examples.sampleMocker Examples.stdout ["Tagger"] [])
     = moq.Panic.
Proof. repeat split; reflexivity. Qed.

(** ** Cleanup of old mocks *)

(** [removeOldMocks] reports an error only when the folder cannot be made
    absolute or the glob pattern is malformed; the files are then untouched. *)
Lemma removeOldMocks_reports_only_Abs_or_Glob (W : moq.World) (srcFolder : string)
    (fs fs' : list moq.File) (e : moq.error) :
  moq.removeOldMocks W srcFolder fs = (Some e, fs') ->
  (e = moq.ErrAbs \/ e = moq.ErrBadPattern) /\ fs' = fs.
Proof.
  unfold moq.removeOldMocks.
  destruct (moq.Abs W srcFolder); [|intros H; injection H as <- <-; auto].
  destruct (moq.Glob W _); intros H; [discriminate|].
  injection H as <- <-; auto.
Qed.

(** C5: a stale mock that cannot be removed. [os.Remove] fails on it,
    [removeOldMocks] returns no error, the file stays, and [Mock] goes on
    to write its output and succeeds. *)
Example removeOldMocks_ignores_failed_remove :
  fst (moq.Remove (moq.file_path Examples.lockedMock) [Examples.lockedMock])
  = Some moq.ErrCleanup
  /\ moq.removeOldMocks (Examples.sampleWorld Examples.forwards) "."
       [Examples.lockedMock]
     = (None, [Examples.lockedMock])
  /\ moq.result (moq.Mock (Examples.sampleWorld Examples.forwards)
                   Examples.sampleMocker Examples.stdout ["Empty"]
                   [Examples.lockedMock])
     = moq.Ok tt
  /\ moq.files (moq.Mock (Examples.sampleWorld Examples.forwards)
                  Examples.sampleMocker Examples.stdout ["Empty"]
                  [Examples.lockedMock])
     = [Examples.lockedMock].
Proof. repeat split; reflexivity. Qed.

(** ** Import qualification *)

Section Qualifier.
Import moq Spec.

Lemma New_pkgPath (W : World) (src packageName : string) (m : Mocker) :
  New W src packageName = Ok m ->
  imports m = []
  /\ exists pkgFull, pkgPath W src = Ok pkgFull
                   /\ m_pkgPath m = path.Join [path.Dir pkgFull; pkgName m].
Proof.
  unfold New.
  destruct (ParseDir W src noTestFiles) as [pkgs|]; [|discriminate].
  destruct (Nat.eqb (String.length (if Nat.eqb (String.length packageName) 0
                                    then inferPackageName (rangeKeys W pkgs)
                                    else packageName)) 0); [discriminate|].
  destruct (pkgPath W src) as [pkgFull| |]; try discriminate.
  destruct (moqTemplate W) as [t|]; [|discriminate].
  intros H. injection H as <-. cbn [imports m_pkgPath pkgName]. eauto.
Qed.

End Qualifier.

(** C3, amended: a package whose identity (the directory of its path joined
    with its short name) equals the receiver's gets the empty qualifier,
    nothing is recorded, and its types are written bare. Any other package
    gets its short name as qualifier, and one path joins the import set:
    the package's own path, or the receiver's identity when that path is
    [.]. In particular the package a mock is generated into, as [New]
    computes its identity, is never recorded and never qualifies. *)
Theorem packageQualifier_self_or_recorded (pkg : types.Package) (m : moq.Mocker) :
  let identity := path.Join [path.Dir (types.Path pkg); types.Name pkg] in
  let recorded :=
    if String.eqb (types.Path pkg) "." then moq.m_pkgPath m else types.Path pkg in
  let m' := snd (moq.packageQualifier pkg m) in
  (identity = moq.m_pkgPath m ->
   moq.packageQualifier pkg m = ("", m)
   /\ forall n, types.TypeString moq.packageQualifier (types.Named (Some pkg) n) m
                = (n, m))
  /\ (identity <> moq.m_pkgPath m ->
      fst (moq.packageQualifier pkg m) = types.Name pkg
      /\ Spec.grows m m'
      /\ forall p, In p (moq.imports m') <-> p = recorded \/ In p (moq.imports m))
  /\ (forall W src packageName pkgFull,
        moq.New W src packageName = moq.Ok m ->
        moq.pkgPath W src = moq.Ok pkgFull ->
        types.Path pkg = pkgFull -> types.Name pkg = moq.pkgName m ->
        moq.packageQualifier pkg m = ("", m)).
Proof.
  intros identity recorded m'.
  assert (Hself : identity = moq.m_pkgPath m -> moq.packageQualifier pkg m = ("", m)).
  { intros Hid. unfold moq.packageQualifier. fold identity.
    rewrite Hid, String.eqb_refl. reflexivity. }
  split; [|split].
  - intros Hid. split; [auto|]. intros n. cbn [types.TypeString].
    unfold types.writePackage. rewrite (Hself Hid). reflexivity.
  - intros Hid. subst m'. unfold moq.packageQualifier. fold identity.
    destruct (String.eqb identity (moq.m_pkgPath m)) eqn:E;
      [apply String.eqb_eq in E; contradiction|].
    cbn [fst snd]. split; [reflexivity|]. split.
    + unfold Spec.grows. cbn. repeat split; auto.
      intros q Hq. apply record_In. now right.
    + intros p. cbn [moq.imports]. apply record_In.
  - intros W src packageName pkgFull HNew Hpath Hp Hn. apply Hself.
    apply New_pkgPath in HNew. destruct HNew as (_ & full & Hfull & ->).
    rewrite Hpath in Hfull. injection Hfull as <-.
    unfold identity. now rewrite Hp, Hn.
Qed.

(** The package generated into and a vendored one, on the sample receiver. *)
Lemma packageQualifier_witness :
  moq.packageQualifier Examples.storePkg Examples.sampleMocker
  = ("", Examples.sampleMocker)
  /\ fst (moq.packageQualifier Examples.vendoredPkg Examples.sampleMocker) = "pkg"
  /\ In "example.com/mod/vendor/example.org/pkg"
       (moq.imports (snd (moq.packageQualifier Examples.vendoredPkg
                            Examples.sampleMocker))).
Proof.
  destruct (packageQualifier_self_or_recorded Examples.storePkg
              Examples.sampleMocker) as (Hself & _).
  destruct (packageQualifier_self_or_recorded Examples.vendoredPkg
              Examples.sampleMocker) as (_ & Hother & _).
  assert (Hdiff : path.Join [path.Dir (types.Path Examples.vendoredPkg);
                             types.Name Examples.vendoredPkg]
                  <> moq.m_pkgPath Examples.sampleMocker)
    by (vm_compute; discriminate).
  destruct (Hother Hdiff) as (Hq & _ & Hin).
  split; [|split].
  - apply Hself. vm_compute. reflexivity.
  - exact Hq.
  - apply Hin. left. vm_compute. reflexivity.
Defined.

(** C3 as stated fails for a package whose path is [.]: its identity is
    its bare name, it differs from the receiver's, and what is recorded is
    the receiver's identity, not the package's import path. *)
Lemma packageQualifier_dot_path_records_receiver_path :
  path.Join [path.Dir (types.Path Examples.dotPkg); types.Name Examples.dotPkg]
  = "store"
  /\ moq.m_pkgPath Examples.otherMocker = "example.com/mod/storetest"
  /\ fst (moq.packageQualifier Examples.dotPkg Examples.otherMocker) = "store"
  /\ moq.imports (snd (moq.packageQualifier Examples.dotPkg Examples.otherMocker))
     = ["example.com/mod/storetest"]
  /\ ~ In (types.Path Examples.dotPkg)
         (moq.imports (snd (moq.packageQualifier Examples.dotPkg
                              Examples.otherMocker))).
Proof.
  repeat split; try (vm_compute; reflexivity).
  vm_compute. intros [H|[]]. discriminate H.
Qed.

(** ** Vendored imports *)

Section Imports.
Import moq Spec.

Lemma fair_In (W : World) (keys : list string) (p : string) :
  fair W -> (In p (rangeKeys W keys) <-> In p keys).
Proof.
  intros Hf. split; apply Permutation_in;
    [apply Hf | apply Permutation_sym, Hf].
Qed.

(** Where the entries of the document's import list come from. *)
Lemma mockDoc_Imports (W : World) (tpkg : types.PackageInfo) (name : list string)
    (m m' : Mocker) (d : doc) (q : string) :
  fair W ->
  mockDoc W tpkg name m = (Ok d, m') ->
  (In q (Imports d) <->
   In q (moqImports W)
   \/ (q = "sync" /\ existsb hasMethods (Objects d) = true)
   \/ exists p, In p (imports m') /\ q = stripVendorPath p).
Proof.
  intros Hf H. apply mockDoc_spec in H. destruct H as (_ & _ & _ & -> & _).
  assert (Hsync : In q (if existsb hasMethods (Objects d) then ["sync"] else [])
                  <-> q = "sync" /\ existsb hasMethods (Objects d) = true).
  { destruct (existsb hasMethods (Objects d)); simpl; intuition congruence. }
  assert (Hmap : In q (map stripVendorPath (rangeKeys W (imports m')))
                 <-> exists p, In p (imports m') /\ q = stripVendorPath p).
  { rewrite in_map_iff. split; intros (p & H1 & H2).
    - exists p. split; [exact (proj1 (fair_In W _ _ Hf) H2) | now symmetry].
    - exists p. split; [now symmetry | exact (proj2 (fair_In W _ _ Hf) H1)]. }
  rewrite !in_app_iff, Hsync, Hmap. reflexivity.
Qed.

End Imports.

(** C4, amended: the qualifier records a foreign package's path as the
    package gives it, vendor marker and all; the rewriting happens when the
    import set is flushed. Every path of the import set enters the
    document's import list as [stripVendorPath] of it, and the list holds
    nothing else beside the baseline imports and [sync]. A path without a
    marker is placed as it is. A path with one marker, [a/vendor/b] with
    no marker starting inside [a] and none in [b], and [b] a clean path
    that does not start with a slash, is placed as [b]: the portion after
    the marker. *)
Theorem vendored_import_stripped_to_suffix
    (W : moq.World) (tpkg : types.PackageInfo) (name : list string)
    (m m' : moq.Mocker) (d : moq.doc) :
  Spec.fair W ->
  moq.mockDoc W tpkg name m = (moq.Ok d, m') ->
  (forall p, In p (moq.imports m') -> In (moq.stripVendorPath p) (moq.Imports d))
  /\ (forall q, In q (moq.Imports d) ->
        In q (moq.moqImports W) \/ q = "sync"
        \/ exists p, In p (moq.imports m') /\ q = moq.stripVendorPath p)
  /\ (forall pkg m0,
        path.Join [path.Dir (types.Path pkg); types.Name pkg] <> moq.m_pkgPath m0 ->
        types.Path pkg <> "." ->
        In (types.Path pkg) (moq.imports (snd (moq.packageQualifier pkg m0))))
  /\ (forall p, strings.Contains p "/vendor/" = false -> moq.stripVendorPath p = p)
  /\ (forall a b,
        strings.Contains (a ++ "/vendor") "/vendor/" = false ->
        strings.Contains b "/vendor/" = false ->
        path.Clean b = b ->
        strings.HasPrefix b "/" = false ->
        moq.stripVendorPath (a ++ "/vendor/" ++ b) = b).
Proof.
  intros Hf Hdoc. split; [|split; [|split; [|split]]].
  - intros p Hp. apply (mockDoc_Imports W tpkg name m m' d _ Hf Hdoc).
    right; right. exists p. now split.
  - intros q Hq. apply (mockDoc_Imports W tpkg name m m' d q Hf Hdoc) in Hq.
    destruct Hq as [Hq|[[Hq _]|Hq]]; auto.
  - intros pkg m0 Hid Hdot. unfold moq.packageQualifier.
    destruct (String.eqb (path.Join [path.Dir (types.Path pkg); types.Name pkg])
                (moq.m_pkgPath m0)) eqn:E;
      [apply String.eqb_eq in E; contradiction|].
    destruct (String.eqb (types.Path pkg) ".") eqn:E';
      [apply String.eqb_eq in E'; contradiction|].
    cbn [snd moq.imports]. apply record_In. now left.
  - intros p Hp. unfold moq.stripVendorPath. now rewrite Split_no_marker.
  - intros a b. apply stripVendorPath_one_marker.
Qed.

(** The document of [Store]: the vendored package is recorded under its
    vendor path and imported as [example.org/pkg]; [context] has no marker
    and is imported as it is. *)
Lemma vendored_import_witness :
  In "example.com/mod/vendor/example.org/pkg" (moq.imports (snd Examples.storeRun))
  /\ In "example.org/pkg" (moq.Imports Examples.storeDoc)
  /\ In "context" (moq.Imports Examples.storeDoc)
  /\ forall q, In q (moq.Imports Examples.storeDoc) ->
       In q (moq.moqImports (Examples.sampleWorld Examples.forwards))
       \/ q = "sync"
       \/ exists p, In p (moq.imports (snd Examples.storeRun))
                    /\ q = moq.stripVendorPath p.
Proof.
  assert (Hf : Spec.fair (Examples.sampleWorld Examples.forwards))
    by (intros keys; apply Permutation_refl).
  assert (Hdoc : moq.mockDoc (Examples.sampleWorld Examples.forwards)
                   Examples.storeInfo ["Store"] Examples.sampleMocker
                 = (moq.Ok Examples.storeDoc, snd Examples.storeRun))
    by (vm_compute; reflexivity).
  destruct (vendored_import_stripped_to_suffix
              (Examples.sampleWorld Examples.forwards) Examples.storeInfo ["Store"]
              Examples.sampleMocker (snd Examples.storeRun) Examples.storeDoc
              Hf Hdoc) as (Hflush & Honly & _ & Hplain & Hone).
  assert (Hv : In "example.com/mod/vendor/example.org/pkg"
                 (moq.imports (snd Examples.storeRun)))
    by (vm_compute; right; left; reflexivity).
  assert (Hc : In "context" (moq.imports (snd Examples.storeRun)))
    by (vm_compute; left; reflexivity).
  split; [exact Hv|]. split; [|split; [|exact Honly]].
  - rewrite <- (Hone "example.com/mod" "example.org/pkg");
      [exact (Hflush _ Hv) | vm_compute; reflexivity ..].
  - rewrite <- (Hplain "context"); [exact (Hflush _ Hc) | vm_compute; reflexivity].
Defined.

(** C4 as stated fails twice. The import set holds the vendored path as
    the package gives it: it is not rewritten before it is recorded. And on
    a nested vendor path the rewritten path still has a vendor marker, in
    the function's result and in the import list of the document. *)
Lemma stripVendorPath_nested_vendor_keeps_marker :
  moq.imports (snd Examples.storeRun)
  = ["context"; "example.com/mod/vendor/example.org/pkg"]
  /\ strings.Contains Examples.nestedVendor "/vendor/" = true
  /\ moq.stripVendorPath Examples.nestedVendor = "b/vendor/c"
  /\ strings.Contains (moq.stripVendorPath Examples.nestedVendor) "/vendor/" = true
  /\ fst Examples.nestedRun
     = moq.Ok (moq.mkDoc "store"
                 [moq.mkObj "Nested"
                    [moq.mkMethod "Use" [moq.mkParam "x" "c.Thing" false] []]]
                 ["sync"; "b/vendor/c"]).
Proof. repeat split; vm_compute; reflexivity. Qed.

(** ** The import set across calls *)

Section Accumulation.
Import moq Spec.

Lemma bind_grows {A B} (c : M A) (k : A -> M B) :
  (forall m, grows m (snd (c m))) ->
  (forall a m, grows m (snd (k a m))) ->
  forall m, grows m (snd (bind c k m)).
Proof.
  intros Hc Hk m. unfold bind. specialize (Hc m).
  destruct (c m) as [[a|e|] m1]; simpl in *; auto.
  eapply grows_trans; [exact Hc | apply Hk].
Qed.

Lemma extractArgsFrom_grows (sig : types.Signature) (listLen : nat)
    (nameFormat : string) :
  forall rest ii params m,
    grows m (snd (extractArgsFrom sig listLen nameFormat ii rest params m)).
Proof.
  induction rest as [|p rest IH]; intros ii params m; cbn [extractArgsFrom].
  - apply grows_refl.
  - apply bind_grows.
    + intros m0. unfold lift.
      pose proof (TypeString_grows (types.VarType p) m0) as G.
      destruct (types.TypeString packageQualifier (types.VarType p) m0). exact G.
    + intros typename m0. apply bind_grows.
      * intros m1.
        destruct (types.Variadic sig && Nat.eqb ii (listLen - 1));
          [destruct (strings.slice typename 0 2)|]; apply grows_refl.
      * intros variadic m1. apply IH.
Qed.

Lemma mockMethods_grows :
  forall meths methods b m, grows m (snd (mockMethods meths methods b m)).
Proof.
  induction meths as [|meth meths IH]; intros methods b m; cbn [mockMethods].
  - apply grows_refl.
  - apply bind_grows; [intros; apply extractArgsFrom_grows|].
    intros Params m1. apply bind_grows; [intros; apply extractArgsFrom_grows|].
    intros Returns m2. apply IH.
Qed.

Lemma mockNames_grows (tpkg : types.PackageInfo) :
  forall name objects b m, grows m (snd (mockNames tpkg name objects b m)).
Proof.
  induction name as [|n name IH]; intros objects b m; cbn [mockNames].
  - apply grows_refl.
  - destruct (types.Lookup (types.Scope tpkg) n) as [iface|]; [|apply grows_refl].
    destruct (types.Methods iface) as [meths|]; [|apply grows_refl].
    apply bind_grows; [intros; apply mockMethods_grows|].
    intros r m1. apply IH.
Qed.

Lemma mockDoc_grows (W : World) (tpkg : types.PackageInfo) (name : list string)
    (m : Mocker) :
  grows m (snd (mockDoc W tpkg name m)).
Proof.
  unfold mockDoc. apply bind_grows; [intros; apply mockNames_grows|].
  intros r m1. apply grows_refl.
Qed.

Lemma Mock_grows (W : World) (m : Mocker) (w : Writer) (name : list string)
    (fs : list File) :
  grows m (mocker (Mock W m w name fs)).
Proof.
  unfold Mock.
  destruct (Nat.eqb (List.length name) 0); [apply grows_refl|].
  destruct (removeOldMocks W (src m) fs) as [[e|] fs']; [apply grows_refl|].
  destruct (pkgInfoFromPath W (src m)) as [pkgInfo|e|]; try apply grows_refl.
  pose proof (mockDoc_grows W pkgInfo name m) as G.
  destruct (mockDoc W pkgInfo name m) as [[d|e|] m']; simpl in G; try exact G.
  destruct (tmpl m' d) as [buf|]; [|exact G].
  destruct (Process W buf) as [formatted|]; [|exact G].
  destruct (Write w formatted) as [[e|] w']; exact G.
Qed.

End Accumulation.




(** ** The sync import *)

Section Sync.
Import moq Spec.

Lemma Forall2_In_l {A B} (R : A -> B -> Prop) (l : list A) (l' : list B) (x : A) :
  Forall2 R l l' -> In x l -> exists y, In y l' /\ R x y.
Proof.
  induction 1 as [|a b l l' Hab _ IH]; intros Hx; [contradiction|].
  destruct Hx as [<-|Hx].
  - exists b. split; [now left | exact Hab].
  - destruct (IH Hx) as (y & Hy & Hr). exists y. split; [now right | exact Hr].
Qed.

Lemma Forall2_In_r {A B} (R : A -> B -> Prop) (l : list A) (l' : list B) (y : B) :
  Forall2 R l l' -> In y l' -> exists x, In x l /\ R x y.
Proof.
  induction 1 as [|a b l l' Hab _ IH]; intros Hy; [contradiction|].
  destruct Hy as [<-|Hy].
  - exists a. split; [now left | exact Hab].
  - destruct (IH Hy) as (x & Hx & Hr). exists x. split; [now right | exact Hr].
Qed.

(** An interface has methods exactly when its stand-in has. *)
Lemma objOf_hasMethods (tpkg : types.PackageInfo) (n : string) (o : obj)
    (meths : list types.Func) :
  objOf tpkg n o -> interfaceMethods tpkg n = Some meths ->
  (hasMethods o = true <-> meths <> []).
Proof.
  intros (_ & meths' & Hm & Hall) Hmeths. rewrite Hmeths in Hm.
  injection Hm as <-. unfold hasMethods.
  inversion Hall; subst; split; congruence.
Qed.

Lemma mockDoc_flag (tpkg : types.PackageInfo) (name : list string) (d : doc) :
  Forall2 (objOf tpkg) name (Objects d) ->
  (existsb hasMethods (Objects d) = true <->
   exists n meths, In n name /\ interfaceMethods tpkg n = Some meths
                   /\ meths <> []).
Proof.
  intros Hall. rewrite existsb_exists. split.
  - intros (o & Ho & Hhas).
    destruct (Forall2_In_r _ _ _ o Hall Ho) as (n & Hn & Hobj).
    pose proof Hobj as (_ & meths & Hm & _).
    exists n, meths. repeat split; auto.
    now apply (objOf_hasMethods tpkg n o meths Hobj Hm).
  - intros (n & meths & Hn & Hm & Hne).
    destruct (Forall2_In_l _ _ _ n Hall Hn) as (o & Ho & Hobj).
    exists o. split; [exact Ho|].
    now apply (objOf_hasMethods tpkg n o meths Hobj Hm).
Qed.

End Sync.

(** C7, amended: whenever one of the requested interfaces has a method,
    [sync] is in the document's import list. The converse holds when no
    path the receiver holds as the call starts is rendered as [sync], in
    particular on a receiver as [New] returns it: then [sync] is in the
    list if and only if one of the requested interfaces has at least one
    method. The package's baseline imports [moqImports] are taken not to
    list [sync] themselves. *)
Theorem sync_imported_iff_some_method
    (W : moq.World) (tpkg : types.PackageInfo)
    (name : list string) (m m' : moq.Mocker) (d : moq.doc) :
  ~ In "sync" (moq.moqImports W) ->
  Spec.fair W ->
  moq.mockDoc W tpkg name m = (moq.Ok d, m') ->
  ((exists n meths, In n name /\ Spec.interfaceMethods tpkg n = Some meths
                    /\ meths <> []) ->
   In "sync" (moq.Imports d))
  /\ ((forall p, In p (moq.imports m) -> moq.stripVendorPath p <> "sync") ->
      (In "sync" (moq.Imports d) <->
       exists n meths, In n name /\ Spec.interfaceMethods tpkg n = Some meths
                       /\ meths <> []))
  /\ (forall src packageName,
        moq.New W src packageName = moq.Ok m ->
        (In "sync" (moq.Imports d) <->
         exists n meths, In n name /\ Spec.interfaceMethods tpkg n = Some meths
                         /\ meths <> [])).
Proof.
  intros Hbase Hf Hdoc.
  pose proof (mockDoc_Imports W tpkg name m m' d "sync" Hf Hdoc) as Himp.
  pose proof (mockDoc_spec W tpkg name m m' d Hdoc) as (_ & Hall & _ & _ & Hsame).
  pose proof (mockDoc_flag tpkg name d Hall) as Hflag.
  assert (Hif : (exists n meths, In n name
                   /\ Spec.interfaceMethods tpkg n = Some meths /\ meths <> []) ->
                In "sync" (moq.Imports d)).
  { intros H. apply Himp. right. left. split; [reflexivity | now apply Hflag]. }
  assert (Honly : (forall p, In p (moq.imports m) ->
                     moq.stripVendorPath p <> "sync") ->
                  In "sync" (moq.Imports d) ->
                  exists n meths, In n name
                    /\ Spec.interfaceMethods tpkg n = Some meths /\ meths <> []).
  { intros Hheld H. apply Hflag. apply Himp in H.
    destruct H as [H|[[_ H]|(p & Hp & Hstrip)]]; [contradiction | exact H |].
    destruct (existsb Spec.hasMethods (moq.Objects d)) eqn:E; [reflexivity|].
    rewrite (Hsame eq_refl) in Hp. symmetry in Hstrip.
    now elim (Hheld p Hp). }
  split; [exact Hif|]. split.
  - intros Hheld. split; [now apply Honly | exact Hif].
  - intros src packageName HNew. split; [|exact Hif].
    apply Honly. intros p Hp.
    apply New_pkgPath in HNew. destruct HNew as [Hempty _].
    rewrite Hempty in Hp. contradiction.
Qed.

(** [Store] has the method [Get], and its document imports [sync]; the
    document of [Empty] alone does not. *)
Lemma sync_imported_witness :
  In "sync" (moq.Imports Examples.storeDoc)
  /\ (In "sync" (moq.Imports (moq.mkDoc "store" [moq.mkObj "Empty" []] [])) <->
      exists n meths, In n ["Empty"]
                      /\ Spec.interfaceMethods Examples.storeInfo n = Some meths
                      /\ meths <> []).
Proof.
  assert (Hf : Spec.fair (Examples.sampleWorld Examples.forwards))
    by (intros keys; apply Permutation_refl).
  assert (Hbase : ~ In "sync" (moq.moqImports (Examples.sampleWorld Examples.forwards)))
    by (vm_compute; intros H; exact H).
  split.
  - destruct (sync_imported_iff_some_method
                (Examples.sampleWorld Examples.forwards) Examples.storeInfo
                ["Store"] Examples.sampleMocker (snd Examples.storeRun)
                Examples.storeDoc Hbase Hf) as (Hif & _);
      [vm_compute; reflexivity|].
    apply Hif. exists "Store", [types.mkFunc "Get" Examples.sigGet].
    split; [now left|]. split; [vm_compute; reflexivity | discriminate].
  - destruct (sync_imported_iff_some_method
                (Examples.sampleWorld Examples.forwards) Examples.storeInfo
                ["Empty"] Examples.sampleMocker Examples.sampleMocker
                (moq.mkDoc "store" [moq.mkObj "Empty" []] []) Hbase Hf)
      as (_ & Hiff & _); [vm_compute; reflexivity|].
    apply Hiff. intros p Hp. vm_compute in Hp. contradiction.
Defined.

(** C7 as stated fails on a receiver used before: the call for [Guard],
    whose method takes a [sync.Locker], leaves the path [sync] in the
    import set, and the document of a later call for the interface [Empty],
    which has no method, lists [sync]. *)
Lemma sync_listed_for_empty_interface_on_reused_receiver :
  moq.result Examples.guardCall = moq.Ok tt
  /\ moq.imports (moq.mocker Examples.guardCall) = ["sync"]
  /\ Spec.interfaceMethods Examples.guardInfo "Empty" = Some []
  /\ fst Examples.emptyAfterGuard
     = moq.Ok (moq.mkDoc "store" [moq.mkObj "Empty" []] ["sync"])
  /\ In "sync" (moq.Imports (moq.mkDoc "store" [moq.mkObj "Empty" []] ["sync"]))
  /\ ~ (exists n meths, In n ["Empty"]
          /\ Spec.interfaceMethods Examples.guardInfo n = Some meths
          /\ meths <> []).
Proof.
  split; [vm_compute; reflexivity|].
  split; [vm_compute; reflexivity|].
  split; [vm_compute; reflexivity|].
  split; [vm_compute; reflexivity|].
  split; [now left|].
  intros (n & meths & [<-|[]] & Hm & Hne).
  vm_compute in Hm. injection Hm as <-. now elim Hne.
Qed.

(** ** All or nothing *)

(** C8: a call of [Mock] that does not succeed, for any reason other than
    the final write itself failing, leaves the writer as it found it: a
    missing name, a name that is no interface, a template or formatter
    failure write nothing, whatever was processed before. *)
Theorem Mock_failure_writes_nothing
    (W : moq.World) (m : moq.Mocker) (w : moq.Writer) (name : list string)
    (fs : list moq.File) :
  moq.result (moq.Mock W m w name fs) <> moq.Ok tt ->
  moq.result (moq.Mock W m w name fs) <> moq.Err moq.ErrWrite ->
  moq.writer (moq.Mock W m w name fs) = w.
Proof.
  unfold moq.Mock.
  destruct (Nat.eqb (List.length name) 0); [reflexivity|].
  destruct (moq.removeOldMocks W (moq.src m) fs) as [[e|] fs']; [reflexivity|].
  destruct (moq.pkgInfoFromPath W (moq.src m)) as [pkgInfo|e|]; try reflexivity.
  destruct (moq.mockDoc W pkgInfo name m) as [[d|e|] m']; try reflexivity.
  destruct (moq.tmpl m' d) as [buf|]; [|reflexivity].
  destruct (moq.Process W buf) as [formatted|]; [|reflexivity].
  unfold moq.Write. destruct (moq.broken w); cbn; intros Hok Hwrite.
  - now elim Hwrite.
  - now elim Hok.
Qed.

(** [T] is no interface: the call fails after [Store] is processed, and
    nothing of [Store] is written. *)
Lemma Mock_failure_writes_nothing_witness :
  moq.writer (moq.Mock (Examples.sampleWorld Examples.forwards)
                Examples.sampleMocker Examples.stdout ["Store"; "T"] [])
  = Examples.stdout.
Proof.
  apply (Mock_failure_writes_nothing (Examples.sampleWorld Examples.forwards)
           Examples.sampleMocker Examples.stdout ["Store"; "T"] []);
    vm_compute; intros H; discriminate H.
Defined.

(** ** Two runs on the same inputs *)

Section Determinism.
Import moq Spec.

Lemma filter_Permutation {A} (f : A -> bool) (l l' : list A) :
  Permutation l l' -> Permutation (List.filter f l) (List.filter f l').
Proof.
  induction 1 as [|x l l' _ IH|x y l|l l' l'' _ IH1 _ IH2]; simpl.
  - constructor.
  - destruct (f x); [now constructor | exact IH].
  - destruct (f x), (f y); try apply Permutation_refl. apply perm_swap.
  - eapply Permutation_trans; eauto.
Qed.

Lemma short_Permutation_eq {A} (l l' : list A) :
  Permutation l l' -> List.length l <= 1 -> l = l'.
Proof.
  intros HP Hlen. destruct l as [|a [|b l]]; simpl in Hlen; [| |lia].
  - symmetry. now apply Permutation_nil.
  - symmetry. now apply Permutation_length_1_inv.
Qed.

Lemma inferPackageName_filter (pkgs : list string) :
  inferPackageName pkgs = hd "" (List.filter nonTest pkgs).
Proof.
  induction pkgs as [|p pkgs IH]; [reflexivity|].
  cbn [inferPackageName List.filter]. unfold nonTest at 1.
  destruct (strings.Contains p "_test"); [exact IH | reflexivity].
Qed.

(** With at most one candidate the order of the visit does not matter. *)
Lemma inferPackageName_any_order (W1 W2 : World) (pkgs : list string) :
  fair W1 -> fair W2 ->
  List.length (List.filter nonTest pkgs) <= 1 ->
  inferPackageName (rangeKeys W1 pkgs) = inferPackageName (rangeKeys W2 pkgs).
Proof.
  intros H1 H2 Hlen. rewrite !inferPackageName_filter.
  rewrite <- (short_Permutation_eq _ (List.filter nonTest (rangeKeys W1 pkgs))
                (filter_Permutation nonTest _ _ (Permutation_sym (H1 pkgs))) Hlen).
  rewrite <- (short_Permutation_eq _ (List.filter nonTest (rangeKeys W2 pkgs))
                (filter_Permutation nonTest _ _ (Permutation_sym (H2 pkgs))) Hlen).
  reflexivity.
Qed.

Lemma sameInputs_pkgPath (W1 W2 : World) (src : string) :
  sameInputs W1 W2 -> pkgPath W1 src = pkgPath W2 src.
Proof.
  intros (Hwd & Hgo & _). unfold pkgPath, Abs, stripGopath, gopaths.
  now rewrite Hwd, Hgo.
Qed.

Lemma New_any_order (W1 W2 : World) (src packageName : string) :
  sameInputs W1 W2 -> fair W1 -> fair W2 ->
  packageNameDetermined W1 src packageName ->
  New W1 src packageName = New W2 src packageName.
Proof.
  intros Hsame H1 H2 Hdet. unfold New.
  rewrite <- (sameInputs_pkgPath W1 W2 src Hsame).
  destruct Hsame as (_ & _ & Hfiles & _ & _ & Htmpl & _).
  unfold ParseDir. rewrite <- Hfiles, <- Htmpl.
  fold (ParseDir W1 src noTestFiles).
  destruct (ParseDir W1 src noTestFiles) as [pkgs|] eqn:Hparse; [|reflexivity].
  destruct (Nat.eqb (String.length packageName) 0) eqn:Hgiven; [|reflexivity].
  destruct Hdet as [Hne|Hone].
  - destruct packageName; [now elim Hne | discriminate Hgiven].
  - now rewrite (inferPackageName_any_order W1 W2 pkgs H1 H2 (Hone pkgs Hparse)).
Qed.

Lemma New_tmpl (W : World) (src packageName : string) (m : Mocker) :
  New W src packageName = Ok m -> moqTemplate W = Some (tmpl m).
Proof.
  unfold New.
  destruct (ParseDir W src noTestFiles) as [pkgs|]; [|discriminate].
  destruct (Nat.eqb (String.length (if Nat.eqb (String.length packageName) 0
                                    then inferPackageName (rangeKeys W pkgs)
                                    else packageName)) 0); [discriminate|].
  destruct (pkgPath W src) as [pkgFull| |]; try discriminate.
  destruct (moqTemplate W) as [t|]; [|discriminate].
  intros H. injection H as <-. reflexivity.
Qed.

Lemma mockDoc_any_order (W1 W2 : World) (tpkg : types.PackageInfo)
    (name : list string) (m : Mocker) :
  sameInputs W1 W2 -> fair W1 -> fair W2 ->
  match mockDoc W1 tpkg name m, mockDoc W2 tpkg name m with
  | (Ok d1, m1), (Ok d2, m2) =>
      m1 = m2 /\ PackageName d1 = PackageName d2 /\ Objects d1 = Objects d2
      /\ Permutation (Imports d1) (Imports d2)
  | (Err e1, m1), (Err e2, m2) => e1 = e2 /\ m1 = m2
  | (Panic, m1), (Panic, m2) => m1 = m2
  | _, _ => False
  end.
Proof.
  intros (_ & _ & _ & _ & _ & _ & Himports & _) H1 H2.
  unfold mockDoc, bind.
  destruct (mockNames tpkg name [] false m) as [[[objs b]|e|] m1]; auto.
  cbn [fst snd]. rewrite <- Himports.
  repeat split.
  apply Permutation_app_head, Permutation_map.
  eapply Permutation_trans; [apply H1 | apply Permutation_sym, H2].
Qed.

Lemma Mock_any_order (W1 W2 : World) (m : Mocker) (w : Writer)
    (name : list string) (fs : list File) :
  sameInputs W1 W2 -> fair W1 -> fair W2 -> orderBlind W1 ->
  moqTemplate W1 = Some (tmpl m) ->
  Mock W1 m w name fs = Mock W2 m w name fs.
Proof.
  intros Hsame H1 H2 Hblind Htmpl. unfold Mock.
  destruct (Nat.eqb (List.length name) 0); [reflexivity|].
  assert (Hrm : removeOldMocks W1 (src m) fs = removeOldMocks W2 (src m) fs).
  { destruct Hsame as (Hwd & _ & _ & Hglob & _).
    unfold removeOldMocks, Abs. now rewrite Hwd, Hglob. }
  assert (Hinfo : pkgInfoFromPath W1 (src m) = pkgInfoFromPath W2 (src m)).
  { unfold pkgInfoFromPath. rewrite (sameInputs_pkgPath W1 W2 _ Hsame).
    destruct Hsame as (_ & _ & _ & _ & Hload & _). now rewrite Hload. }
  rewrite <- Hrm, <- Hinfo.
  destruct (removeOldMocks W1 (src m) fs) as [[e|] fs']; [reflexivity|].
  destruct (pkgInfoFromPath W1 (src m)) as [pkgInfo|e|]; try reflexivity.
  pose proof (mockDoc_any_order W1 W2 pkgInfo name m Hsame H1 H2) as Hdoc.
  pose proof (mockDoc_grows W1 pkgInfo name m) as G.
  destruct (mockDoc W1 pkgInfo name m) as [[d1|e1|] m1];
    destruct (mockDoc W2 pkgInfo name m) as [[d2|e2|] m2];
    try contradiction.
  - destruct Hdoc as (<- & Hp & Ho & Hi).
    destruct G as (_ & Ht & _). cbn [snd] in Ht.
    rewrite Ht in *.
    pose proof (Hblind (tmpl m) d1 d2 Htmpl Hp Ho Hi) as Hr.
    destruct Hsame as (_ & _ & _ & _ & _ & _ & _ & Hproc).
    rewrite <- Hproc.
    destruct (tmpl m d1) as [buf1|], (tmpl m d2) as [buf2|];
      cbn [option_map] in Hr; try discriminate Hr; [|reflexivity].
    injection Hr as Hr. rewrite Hr. reflexivity.
  - destruct Hdoc as (<- & <-). reflexivity.
  - subst m2. reflexivity.
Qed.

End Determinism.

(** A formatter that sorts the import lines makes the formatted text of
    [lineTemplate] independent of the order of the import list. *)
Section Sorting.
Import moq Spec Examples.

Lemma leb_trans (a b c : string) :
  String.leb a b = true -> String.leb b c = true -> String.leb a c = true.
Proof.
  unfold String.leb. intros Hab Hbc.
  destruct (String.compare a b) eqn:Eab; try discriminate;
  destruct (String.compare b c) eqn:Ebc; try discriminate.
  - apply String.compare_eq_iff in Eab. subst a. now rewrite Ebc.
  - apply String.compare_eq_iff in Eab. subst a. now rewrite Ebc.
  - apply String.compare_eq_iff in Ebc. subst c. now rewrite Eab.
  - assert (H : OrderedTypeEx.String_as_OT.lt a c).
    { eapply OrderedTypeEx.String_as_OT.lt_trans;
        apply OrderedTypeEx.String_as_OT.cmp_lt; eassumption. }
    apply OrderedTypeEx.String_as_OT.cmp_lt in H.
    unfold OrderedTypeEx.String_as_OT.cmp in H. now rewrite H.
Qed.

Lemma leb_false_flip (a b : string) :
  String.leb a b = false -> String.leb b a = true.
Proof. intros H. destruct (String.leb_total a b) as [E|E]; congruence. Qed.

Lemma insertLine_comm (x y : string) (l : list string) :
  insertLine x (insertLine y l) = insertLine y (insertLine x l).
Proof.
  induction l as [|h t IH]; cbn [insertLine].
  - destruct (String.leb x y) eqn:Exy, (String.leb y x) eqn:Eyx; try reflexivity.
    + now rewrite (String.leb_antisym x y Exy Eyx).
    + apply leb_false_flip in Exy. congruence.
  - destruct (String.leb y h) eqn:Eyh, (String.leb x h) eqn:Exh; cbn [insertLine].
    + rewrite Eyh, Exh.
      destruct (String.leb x y) eqn:Exy, (String.leb y x) eqn:Eyx; try reflexivity.
      * now rewrite (String.leb_antisym x y Exy Eyx).
      * apply leb_false_flip in Exy. congruence.
    + rewrite Exh, Eyh.
      destruct (String.leb x y) eqn:Exy; [|reflexivity].
      rewrite (leb_trans x y h Exy Eyh) in Exh. discriminate.
    + rewrite Exh, Eyh.
      destruct (String.leb y x) eqn:Eyx; [|reflexivity].
      rewrite (leb_trans y x h Eyx Exh) in Eyh. discriminate.
    + rewrite Exh, Eyh. now rewrite IH.
Qed.

(** Sorting forgets the order of its input. *)
Lemma sortLines_Permutation (l l' : list string) :
  Permutation l l' -> sortLines l = sortLines l'.
Proof.
  induction 1 as [|x l l' _ IH|x y l|l l' l'' _ IH1 _ IH2]; cbn [sortLines].
  - reflexivity.
  - now rewrite IH.
  - apply insertLine_comm.
  - congruence.
Qed.

Lemma linesFrom_app_nl (a b cur : string) :
  linesFrom cur (a ++ nl ++ b) = (linesFrom cur a ++ linesFrom "" b)%list.
Proof.
  revert cur. induction a as [|c a IH]; intros cur.
  - reflexivity.
  - change (String c a ++ nl ++ b) with (String c (a ++ nl ++ b)).
    cbn [linesFrom]. destruct (isNewline c).
    + rewrite IH. reflexivity.
    + apply IH.
Qed.

Lemma linesFrom_plain (s cur : string) :
  plain s = true -> linesFrom cur s = [cur ++ s].
Proof.
  revert cur. induction s as [|c s IH]; intros cur H.
  - now rewrite append_nil_r'.
  - cbn [plain] in H. apply andb_true_iff in H. destruct H as [Hc Hs].
    apply negb_true_iff in Hc. cbn [linesFrom]. rewrite Hc, (IH _ Hs).
    now rewrite append_assoc'.
Qed.

Lemma linesFrom_nonempty (s cur : string) :
  exists first rest, linesFrom cur s = first :: rest.
Proof.
  revert cur. induction s as [|c s IH]; intros cur; cbn [linesFrom].
  - now exists cur, [].
  - destruct (isNewline c); [now exists cur, (linesFrom "" s) | apply IH].
Qed.

Lemma plain_app (a b : string) : plain (a ++ b) = plain a && plain b.
Proof.
  induction a as [|c a IH]; [reflexivity|].
  change (String c a ++ b) with (String c (a ++ b)). cbn [plain].
  now rewrite IH, andb_assoc.
Qed.

Lemma plain_quoted (s : string) : plain (quoted s) = true.
Proof.
  induction s as [|c s IH]; [reflexivity|]. cbn [quoted].
  destruct (isNewline c) eqn:E.
  - change (plain (String "\" (String "n" (quoted s))))
      with (negb (isNewline "\") && (negb (isNewline "n") && plain (quoted s))).
    rewrite IH. vm_compute. reflexivity.
  - cbn [plain]. now rewrite E, IH.
Qed.

Lemma plain_importLine (i : string) : plain (importLine i) = true.
Proof.
  unfold importLine. rewrite !plain_app, plain_quoted. vm_compute. reflexivity.
Qed.

Lemma isImportLine_importLine (i : string) : isImportLine (importLine i) = true.
Proof. unfold isImportLine, importLine. apply prefix_app_self. Qed.

Lemma lines_importLines (imps : list string) (body : string) :
  lines (importLines imps ++ body) = (map importLine imps ++ lines body)%list.
Proof.
  induction imps as [|i imps IH]; [reflexivity|].
  cbn [importLines map]. rewrite !append_assoc'. unfold lines in *.
  rewrite linesFrom_app_nl, IH.
  now rewrite (linesFrom_plain _ "" (plain_importLine i)).
Qed.

Lemma filter_importLines (imps : list string) :
  List.filter (fun l => negb (isImportLine l)) (map importLine imps) = [].
Proof.
  induction imps as [|i imps IH]; [reflexivity|].
  cbn [map List.filter]. now rewrite isImportLine_importLine.
Qed.

Lemma sortImports_any_order (pn body : string) (imps1 imps2 : list string) :
  Permutation imps1 imps2 ->
  sortImports ("package " ++ pn ++ nl ++ importLines imps1 ++ body)
  = sortImports ("package " ++ pn ++ nl ++ importLines imps2 ++ body).
Proof.
  intros HP. unfold sortImports.
  assert (Hlines : forall imps,
             lines ("package " ++ pn ++ nl ++ importLines imps ++ body)
             = (lines ("package " ++ pn) ++ map importLine imps ++ lines body)%list).
  { intros imps. rewrite <- (append_assoc' "package " pn). unfold lines.
    rewrite linesFrom_app_nl. f_equal. apply lines_importLines. }
  rewrite !Hlines.
  destruct (linesFrom_nonempty ("package " ++ pn) "") as (first & rest & Hfirst).
  unfold lines at 1 3. rewrite Hfirst. cbn [app].
  rewrite !List.filter_app, !filter_importLines.
  do 3 f_equal. f_equal. apply sortLines_Permutation.
  apply Permutation_app_head, Permutation_app_tail.
  apply filter_Permutation, Permutation_map, HP.
Qed.

Lemma orderBlind_sortingWorld (order : list string -> list string) :
  orderBlind (sortingWorld order).
Proof.
  intros t d1 d2 Ht Hp Ho Hi. cbn in Ht. injection Ht as <-.
  unfold lineTemplate. rewrite Ho, Hp.
  destruct (renderObjects (Objects d2)) as [body|]; [|reflexivity].
  cbn [option_map]. f_equal.
  change (Process (sortingWorld order)) with sortImports.
  now apply sortImports_any_order.
Qed.

End Sorting.

(** C9, amended: two runs of the command on the same inputs, each
    visiting its maps in an order of its own, end alike, byte-identical
    output included, provided the package name is determined (it is given,
    or at most one parsed package has a name without [_test]) and the
    formatted text does not depend on the order of the document's import
    list. *)
Theorem run_twice_same_output
    (W1 W2 : moq.World) (destination pkg : string) (args : list string)
    (w : moq.Writer) (fs : list moq.File) :
  Spec.sameInputs W1 W2 ->
  Spec.fair W1 -> Spec.fair W2 ->
  Spec.packageNameDetermined W1 destination pkg ->
  Spec.orderBlind W1 ->
  moq.run W1 destination pkg args w fs = moq.run W2 destination pkg args w fs.
Proof.
  intros Hsame H1 H2 Hdet Hblind. unfold moq.run.
  rewrite <- (New_any_order W1 W2 destination pkg Hsame H1 H2 Hdet).
  destruct (moq.New W1 destination pkg) as [m|e|] eqn:HNew; try reflexivity.
  f_equal. apply Mock_any_order; auto.
  now apply New_tmpl in HNew.
Qed.

(** Two runs for [Store] with the package name given, one visiting the
    import set in insertion order and one in reverse. The template writes
    one import line per entry of the import list, in the order of the
    list, and the formatter sorts the import lines: both runs write the
    same text, with the three imports in ascending order. *)
Lemma run_twice_same_output_witness :
  moq.run (Examples.sortingWorld Examples.forwards) "." "store" ["Store"]
    Examples.stdout [Examples.staleMock]
  = moq.run (Examples.sortingWorld Examples.backwards) "." "store" ["Store"]
      Examples.stdout [Examples.staleMock]
  /\ Examples.output
       (moq.run (Examples.sortingWorld Examples.backwards) "." "store" ["Store"]
          Examples.stdout [Examples.staleMock])
     = ["package store" ++ Examples.nl
        ++ Examples.importLine "context" ++ Examples.nl
        ++ Examples.importLine "example.org/pkg" ++ Examples.nl
        ++ Examples.importLine "sync" ++ Examples.nl
        ++ "type StoreMock struct {" ++ Examples.nl
        ++ "  GetFunc func(ctx context.Context, in2 string) (*pkg.Item, error)"
        ++ Examples.nl ++ "}" ++ Examples.nl].
Proof.
  split; [|vm_compute; reflexivity].
  apply run_twice_same_output.
  - repeat split; reflexivity.
  - intros keys. apply Permutation_refl.
  - intros keys. apply Permutation_sym, Permutation_rev.
  - left. discriminate.
  - apply orderBlind_sortingWorld.
Defined.

(** C9 as stated fails when the directory holds two packages and no name
    is given: the run that visits [store] first writes a file of package
    [store], the run that visits [main] first one of package [main]. And
    with the name given, a formatter that leaves the import block as it is
    rendered passes the visiting order of the import set on to the output:
    that the formatter sorts is what the result rests on. *)
Lemma run_output_depends_on_package_order :
  Spec.sameInputs (Examples.sampleWorld Examples.forwards)
    (Examples.sampleWorld Examples.backwards)
  /\ Spec.fair (Examples.sampleWorld Examples.forwards)
  /\ Spec.fair (Examples.sampleWorld Examples.backwards)
  /\ Examples.output
       (moq.run (Examples.sampleWorld Examples.forwards) "." "" ["Empty"]
          Examples.stdout [])
     = ["package store" ++ Examples.nl ++ "import ()" ++ Examples.nl
        ++ "type EmptyMock struct {" ++ Examples.nl ++ "}" ++ Examples.nl]
  /\ Examples.output
       (moq.run (Examples.sampleWorld Examples.backwards) "." "" ["Empty"]
          Examples.stdout [])
     = ["package main" ++ Examples.nl ++ "import ()" ++ Examples.nl
        ++ "type EmptyMock struct {" ++ Examples.nl ++ "}" ++ Examples.nl]
  /\ Examples.output
       (moq.run (Examples.sampleWorld Examples.forwards) "." "" ["Empty"]
          Examples.stdout [])
     <> Examples.output
          (moq.run (Examples.sampleWorld Examples.backwards) "." "" ["Empty"]
             Examples.stdout [])
  /\ Spec.packageNameDetermined (Examples.sampleWorld Examples.forwards) "." "store"
  /\ Examples.output
       (moq.run (Examples.sampleWorld Examples.forwards) "." "store" ["Store"]
          Examples.stdout [])
     = ["package store" ++ Examples.nl
        ++ "import (sync context example.org/pkg)" ++ Examples.nl
        ++ "type StoreMock struct {" ++ Examples.nl
        ++ "  GetFunc func(ctx context.Context, in2 string) (*pkg.Item, error)"
        ++ Examples.nl ++ "}" ++ Examples.nl]
  /\ Examples.output
       (moq.run (Examples.sampleWorld Examples.backwards) "." "store" ["Store"]
          Examples.stdout [])
     = ["package store" ++ Examples.nl
        ++ "import (sync example.org/pkg context)" ++ Examples.nl
        ++ "type StoreMock struct {" ++ Examples.nl
        ++ "  GetFunc func(ctx context.Context, in2 string) (*pkg.Item, error)"
        ++ Examples.nl ++ "}" ++ Examples.nl]
  /\ ~ Spec.orderBlind (Examples.sampleWorld Examples.forwards).
Proof.
  split; [repeat split; reflexivity|].
  split; [intros keys; apply Permutation_refl|].
  split; [intros keys; apply Permutation_sym, Permutation_rev|].
  split; [vm_compute; reflexivity|].
  split; [vm_compute; reflexivity|].
  split; [vm_compute; intros H; discriminate H|].
  split; [left; discriminate|].
  split; [vm_compute; reflexivity|].
  split; [vm_compute; reflexivity|].
  intros H.
  specialize (H Examples.sampleTemplate
                (moq.mkDoc "store" [] ["context"; "sync"])
                (moq.mkDoc "store" [] ["sync"; "context"])
                eq_refl eq_refl eq_refl (perm_swap _ _ _)).
  vm_compute in H. discriminate H.
Qed.

(** ** Further properties *)

Section Totality.
Import moq Spec.

Lemma extractArgsFrom_total (sig : types.Signature) (listLen : nat)
    (nameFormat : string) :
  forall rest ii params m,
    (types.Variadic sig = true ->
     forall k v, nth_error rest k = Some v -> ii + k = listLen - 1 ->
                 exists elem, types.VarType v = types.Slice elem) ->
    exists ps m',
      extractArgsFrom sig listLen nameFormat ii rest params m = (Ok ps, m').
Proof.
  induction rest as [|p rest IH]; intros ii params m Hlast.
  - cbn [extractArgsFrom]. unfold ret. eauto.
  - cbn [extractArgsFrom]. unfold bind at 1. unfold lift.
    destruct (types.TypeString packageQualifier (types.VarType p) m)
      as [typename m1] eqn:Ht.
    assert (Hflag : exists variadic,
               (if types.Variadic sig && Nat.eqb ii (listLen - 1)
                then match strings.slice typename 0 2 with
                     | Some pre => ret (String.eqb pre "[]")
                     | None => panic
                     end
                else ret false) m1 = (Ok variadic, m1)).
    { destruct (types.Variadic sig) eqn:Hv; cbn [andb]; [|unfold ret; eauto].
      destruct (Nat.eqb ii (listLen - 1)) eqn:Hi; [|unfold ret; eauto].
      apply Nat.eqb_eq in Hi.
      destruct (Hlast eq_refl 0 p eq_refl) as [elem He]; [lia|].
      rewrite He in Ht. cbn [types.TypeString] in Ht.
      destruct (types.TypeString packageQualifier elem m) as [s m0].
      injection Ht as <- <-. eexists. reflexivity. }
    destruct Hflag as [variadic Hflag].
    unfold bind at 1. rewrite Hflag.
    apply IH. intros Hv k v Hk Hidx.
    apply (Hlast Hv (S k) v Hk). lia.
Qed.

End Totality.

(** On a tuple whose last member has a slice type whenever the signature
    is variadic (the inputs of every signature are so), as on any tuple of
    a signature that is not variadic, [extractArgs] returns its descriptors. *)
Lemma extractArgs_total_when_last_is_slice (sig : types.Signature)
    (vars : list types.Var) (nameFormat : string) (m : moq.Mocker) :
  (types.Variadic sig = true ->
   forall v, nth_error vars (List.length vars - 1) = Some v ->
             exists elem, types.VarType v = types.Slice elem) ->
  exists ps m', moq.extractArgs sig vars nameFormat m = (moq.Ok ps, m').
Proof.
  intros H. unfold moq.extractArgs. apply extractArgsFrom_total.
  intros Hv k v Hk Hidx. apply (H Hv v). simpl in Hidx. now rewrite <- Hidx.
Qed.

(** The inputs of [Add(prefix []string, xs ...int)]. *)
Lemma extractArgs_total_witness :
  exists ps m',
    moq.extractArgs Examples.sigAdd (types.Params Examples.sigAdd) "in%d"
      Examples.sampleMocker = (moq.Ok ps, m').
Proof.
  apply (extractArgs_total_when_last_is_slice Examples.sigAdd
           (types.Params Examples.sigAdd) "in%d" Examples.sampleMocker).
  intros _ v Hv. cbn in Hv. injection Hv as <-. exists Examples.tInt.
  reflexivity.
Defined.

(** The result of [Add], flagged though it is a result: the three
    conditions hold of it. *)
Lemma extractArgs_variadic_only_last_witness :
  types.Variadic Examples.sigAdd = true
  /\ 0 = List.length (types.Results Examples.sigAdd) - 1
  /\ strings.HasPrefix "[]string" "[]" = true.
Proof.
  apply (extractArgs_variadic_only_last Examples.sigAdd
           (types.Results Examples.sigAdd) "out%d" "out" Examples.sampleMocker
           (snd (moq.extractArgs Examples.sigAdd (types.Results Examples.sigAdd)
                   "out%d" Examples.sampleMocker))
           [moq.mkParam "out1" "[]string" true] 0
           (moq.mkParam "out1" "[]string" true)).
  - exact Sprintf_out.
  - vm_compute. reflexivity.
  - reflexivity.
  - reflexivity.
Defined.

(** A name that is absent from the scope or names no interface makes the
    call fail, wherever it stands in the list, and nothing is written. *)
Lemma Mock_fails_on_bad_name (W : moq.World) (m : moq.Mocker) (w : moq.Writer)
    (name : list string) (fs : list moq.File) (n : string) :
  In n name ->
  (forall tpkg, moq.pkgInfoFromPath W (moq.src m) = moq.Ok tpkg ->
                Spec.interfaceMethods tpkg n = None) ->
  moq.result (moq.Mock W m w name fs) <> moq.Ok tt
  /\ moq.writer (moq.Mock W m w name fs) = w.
Proof.
  intros Hn Hbad. unfold moq.Mock.
  destruct (Nat.eqb (List.length name) 0); [split; [discriminate | reflexivity]|].
  destruct (moq.removeOldMocks W (moq.src m) fs) as [[e|] fs'];
    [split; [discriminate | reflexivity]|].
  destruct (moq.pkgInfoFromPath W (moq.src m)) as [pkgInfo|e|];
    try (split; [discriminate | reflexivity]).
  specialize (Hbad pkgInfo eq_refl).
  destruct (moq.mockDoc W pkgInfo name m) as [[d|e|] m'] eqn:Hdoc;
    try (split; [discriminate | reflexivity]).
  exfalso. apply mockDoc_spec in Hdoc. destruct Hdoc as (_ & Hall & _).
  destruct (Forall2_In_l _ _ _ n Hall Hn) as (o & _ & _ & meths & Hm & _).
  congruence.
Qed.

(** [Missing] is not declared: the call for [Store] and [Missing] fails. *)
Lemma Mock_fails_on_bad_name_witness :
  moq.result (moq.Mock (Examples.sampleWorld Examples.forwards)
                Examples.sampleMocker Examples.stdout ["Store"; "Missing"] [])
  <> moq.Ok tt
  /\ moq.writer (moq.Mock (Examples.sampleWorld Examples.forwards)
                   Examples.sampleMocker Examples.stdout ["Store"; "Missing"] [])
     = Examples.stdout.
Proof.
  apply (Mock_fails_on_bad_name (Examples.sampleWorld Examples.forwards)
           Examples.sampleMocker Examples.stdout ["Store"; "Missing"] []
           "Missing").
  - right. left. reflexivity.
  - intros tpkg H. vm_compute in H. injection H as <-. vm_compute. reflexivity.
Defined.

(** ** Exported names *)

Section ExportedFacts.
Import moq.

Lemma upperByte_idem (c : ascii) :
  strings.upperByte (strings.upperByte c) = strings.upperByte c.
Proof. destruct c as [[] [] [] [] [] [] [] []]; reflexivity. Qed.

Lemma upperByte_not_lower (c : ascii) :
  strings.isLower (strings.upperByte c) = false.
Proof. destruct c as [[] [] [] [] [] [] [] []]; reflexivity. Qed.

Lemma upperByte_ascii (c : ascii) :
  (nat_of_ascii c <? 128)%nat = true ->
  (nat_of_ascii (strings.upperByte c) <? 128)%nat = true.
Proof. destruct c as [[] [] [] [] [] [] [] []]; intros H; try exact H; reflexivity. Qed.

Lemma ToUpper_idem (s : string) : strings.ToUpper (strings.ToUpper s) = strings.ToUpper s.
Proof.
  induction s as [|c s IH]; simpl; [reflexivity|].
  now rewrite upperByte_idem, IH.
Qed.

Lemma ToUpper_length (s : string) :
  String.length (strings.ToUpper s) = String.length s.
Proof. induction s as [|c s IH]; simpl; [reflexivity | now rewrite IH]. Qed.

Lemma ToUpper_ascii (s : string) :
  strings.isASCII s = true -> strings.isASCII (strings.ToUpper s) = true.
Proof.
  unfold strings.isASCII. induction s as [|c s IH]; simpl; [reflexivity|].
  intros H. apply andb_prop in H. destruct H as [Hc Hs].
  now rewrite (upperByte_ascii c Hc), (IH Hs).
Qed.

Lemma matchInitialism_Some (upper i : string) (l : list string) :
  matchInitialism upper l = Some i -> i = upper /\ In i l.
Proof.
  induction l as [|x l IH]; simpl; [discriminate|].
  destruct (String.eqb upper x) eqn:E.
  - intros H. injection H as <-. apply String.eqb_eq in E. auto.
  - intros H. destruct (IH H). auto.
Qed.

(** What [Exported] returns on a name that is not empty. *)
Lemma Exported_cases (c : ascii) (s : string) :
  (Exported (String c s) = strings.ToUpper (String c s)
   /\ matchInitialism (strings.ToUpper (String c s)) golintInitialisms
      = Some (strings.ToUpper (String c s)))
  \/ (Exported (String c s) = String (strings.upperByte c) s
      /\ matchInitialism (strings.ToUpper (String c s)) golintInitialisms = None).
Proof.
  unfold Exported. cbn [String.eqb].
  destruct (matchInitialism (strings.ToUpper (String c s)) golintInitialisms)
    as [i|] eqn:E.
  - left. apply matchInitialism_Some in E. destruct E as [-> _]. auto.
  - right. split; [|reflexivity].
    cbn [strings.take strings.drop strings.ToUpper String.append]. reflexivity.
Qed.

End ExportedFacts.

(** [Exported] is idempotent on ASCII names, and its result is ASCII
    again: exporting an exported name changes nothing. *)
Theorem Exported_idempotent (s : string) :
  strings.isASCII s = true ->
  strings.isASCII (moq.Exported s) = true
  /\ moq.Exported (moq.Exported s) = moq.Exported s.
Proof.
  intros Hascii. destruct s as [|c s]; [split; reflexivity|].
  destruct (Exported_cases c s) as [[-> Hm]|[-> Hm]].
  - split; [now apply ToUpper_ascii|].
    cbn [strings.ToUpper] in *.
    destruct (Exported_cases (strings.upperByte c) (strings.ToUpper s))
      as [[-> _]|[_ Hn]].
    + cbn [strings.ToUpper]. now rewrite upperByte_idem, ToUpper_idem.
    + cbn [strings.ToUpper] in Hn. rewrite upperByte_idem, ToUpper_idem in Hn.
      congruence.
  - split.
    + unfold strings.isASCII in *. cbn [list_ascii_of_string forallb] in *.
      apply andb_prop in Hascii. destruct Hascii as [Hc Hs].
      now rewrite (upperByte_ascii c Hc), Hs.
    + destruct (Exported_cases (strings.upperByte c) s) as [[_ Hn]|[-> _]].
      * cbn [strings.ToUpper] in Hn, Hm. rewrite upperByte_idem in Hn.
        congruence.
      * now rewrite upperByte_idem.
Qed.

(** ["httpServer"], which is no initialism. *)
Lemma Exported_idempotent_witness :
  strings.isASCII (moq.Exported "httpServer") = true
  /\ moq.Exported (moq.Exported "httpServer") = moq.Exported "httpServer".
Proof. apply (Exported_idempotent "httpServer"). reflexivity. Defined.

(** [Exported] only changes the case of an ASCII name: the result has the
    same length, is the same name when both are upper-cased, and its first
    byte is never a lower-case letter. *)
Theorem Exported_changes_case_only (s : string) :
  strings.isASCII s = true ->
  String.length (moq.Exported s) = String.length s
  /\ strings.ToUpper (moq.Exported s) = strings.ToUpper s
  /\ forall c rest, moq.Exported s = String c rest -> strings.isLower c = false.
Proof.
  intros _. destruct s as [|c s]; [repeat split; intros; discriminate|].
  destruct (Exported_cases c s) as [[-> _]|[-> _]].
  - split; [apply ToUpper_length|]. split; [apply ToUpper_idem|].
    cbn [strings.ToUpper]. intros c' rest H. injection H as <- _.
    apply upperByte_not_lower.
  - split; [reflexivity|]. split.
    + cbn [strings.ToUpper]. now rewrite upperByte_idem.
    + intros c' rest H. injection H as <- _. apply upperByte_not_lower.
Qed.

(** ["id"], an initialism in lower case. *)
Lemma Exported_changes_case_only_witness :
  String.length (moq.Exported "id") = String.length "id"
  /\ strings.ToUpper (moq.Exported "id") = strings.ToUpper "id"
  /\ forall c rest, moq.Exported "id" = String c rest -> strings.isLower c = false.
Proof. apply (Exported_changes_case_only "id"). reflexivity. Defined.

(** ** Descriptors, one by one *)

Section Pointwise.
Import moq Spec.




Lemma take_all (s : string) : strings.take (String.length s) s = s.
Proof. induction s as [|c s IH]; simpl; [reflexivity | now rewrite IH]. Qed.

Lemma drop_length (n : nat) (s : string) :
  String.length (strings.drop n s) = String.length s - n.
Proof.
  revert s; induction n as [|n IH]; intros [|c s]; simpl; auto.
Qed.

(** [s[n:]] is in bounds for [n <= len(s)]. *)
Lemma slice_suffix (s : string) (n : nat) :
  n <= String.length s ->
  strings.slice s n (String.length s) = Some (strings.drop n s).
Proof.
  intros Hn. unfold strings.slice.
  apply Nat.leb_le in Hn. rewrite Hn, Nat.leb_refl. cbn [andb].
  now rewrite <- drop_length, take_all.
Qed.


End Pointwise.



(** ** Rendering the descriptors *)

Section Rendering.
Import moq Spec.

Lemma prefix_length (pre s : string) :
  String.prefix pre s = true -> String.length pre <= String.length s.
Proof.
  revert s; induction pre as [|c pre IH]; intros s H; simpl; [lia|].
  destruct s as [|d s]; simpl in H; [discriminate|].
  destruct (ascii_dec c d); [|discriminate]. apply IH in H. simpl. lia.
Qed.

(** A descriptor whose flag implies a type text starting with [[]]
    renders without a panic. *)
Lemma param_TypeString_Ok (p : param) :
  (par_Variadic p = true -> strings.HasPrefix (par_Type p) "[]" = true) ->
  exists t, param_TypeString p = Ok t.
Proof.
  intros H. unfold param_TypeString. destruct (par_Variadic p); [|eauto].
  specialize (H eq_refl). apply prefix_length in H. simpl in H.
  rewrite (slice_suffix _ 2 H). eauto.
Qed.

Lemma mapResult_Ok {A B} (f : A -> Result B) (l : list A) :
  (forall a, In a l -> exists b, f a = Ok b) -> exists bs, mapResult f l = Ok bs.
Proof.
  induction l as [|a l IH]; intros H; simpl; [eauto|].
  destruct (H a (or_introl eq_refl)) as [b ->].
  destruct IH as [bs ->]; [intros x Hx; apply H; now right|]. eauto.
Qed.

Lemma extracted_renders (sig : types.Signature) (listLen : nat) (prefix : string) :
  forall vars ps ii,
    extracted sig listLen prefix ii vars ps ->
    forall p, In p ps -> exists t, param_TypeString p = Ok t.
Proof.
  induction vars as [|v vars IH]; intros [|q ps] ii H p Hp; simpl in H;
    try contradiction.
  destruct H as (_ & Hflag & Hrest). destruct Hp as [<-|Hp].
  - apply param_TypeString_Ok. intros Hv. now destruct (Hflag Hv) as (_ & _ & ?).
  - eapply IH; eauto.
Qed.

Lemma methodOf_renders (f : types.Func) (mt : method) :
  methodOf f mt ->
  (exists a, Arglist mt = Ok a) /\ (exists r, ReturnArglist mt = Ok r).
Proof.
  intros (_ & Hin & Hout). split.
  - unfold Arglist.
    destruct (mapResult_Ok param_String (meth_Params mt)) as [bs ->]; [|eauto].
    intros p Hp. unfold param_String.
    destruct (extracted_renders _ _ _ _ _ _ Hin p Hp) as [t ->]. eauto.
  - unfold ReturnArglist.
    destruct (mapResult_Ok param_TypeString (meth_Returns mt)) as [bs ->].
    + intros p Hp. eapply extracted_renders; eauto.
    + destruct (Nat.ltb 1 (List.length (meth_Returns mt))); eauto.
Qed.

Lemma Forall2_map_eq {A B C} (f : B -> C) (g : A -> C) (l : list A) (l' : list B) :
  Forall2 (fun a b => f b = g a) l l' -> map f l' = map g l.
Proof. induction 1; simpl; [reflexivity | congruence]. Qed.

Lemma decimal_inj (a b : nat) : decimal a = decimal b -> a = b.
Proof.
  unfold decimal. intros H. apply DecimalNat.Unsigned.to_uint_inj.
  apply (f_equal NilEmpty.uint_of_string) in H.
  rewrite !NilEmpty.usu in H. now injection H.
Qed.

Lemma append_inj_l (pre a b : string) : pre ++ a = pre ++ b -> a = b.
Proof.
  induction pre as [|c pre IH]; simpl; intros H; [exact H|].
  injection H as H. now apply IH.
Qed.

End Rendering.

(** The descriptors [Mock] builds always render: for every method of the
    document, neither the parameter list nor the return list panics on
    [p.Type[2:]]. *)
Theorem Mock_descriptors_render
    (W : moq.World) (tpkg : types.PackageInfo) (name : list string)
    (m m' : moq.Mocker) (d : moq.doc) (o : moq.obj) (mt : moq.method) :
  moq.mockDoc W tpkg name m = (moq.Ok d, m') ->
  In o (moq.Objects d) -> In mt (moq.Methods o) ->
  (exists a, moq.Arglist mt = moq.Ok a)
  /\ (exists r, moq.ReturnArglist mt = moq.Ok r).
Proof.
  intros Hdoc Ho Hmt. apply mockDoc_spec in Hdoc. destruct Hdoc as (_ & Hall & _).
  destruct (Forall2_In_r _ _ _ o Hall Ho) as (n & _ & _ & meths & _ & Hms).
  destruct (Forall2_In_r _ _ _ mt Hms Hmt) as (f & _ & Hf).
  now apply (methodOf_renders f mt).
Qed.

(** The method [Get] of the document of [Store]. *)
Lemma Mock_descriptors_render_witness :
  (exists a,
     moq.Arglist
       (moq.mkMethod "Get"
          [moq.mkParam "ctx" "context.Context" false;
           moq.mkParam "in2" "string" false]
          [moq.mkParam "out1" "*pkg.Item" false;
           moq.mkParam "out2" "error" false]) = moq.Ok a)
  /\ (exists r,
        moq.ReturnArglist
          (moq.mkMethod "Get"
             [moq.mkParam "ctx" "context.Context" false;
              moq.mkParam "in2" "string" false]
             [moq.mkParam "out1" "*pkg.Item" false;
              moq.mkParam "out2" "error" false]) = moq.Ok r).
Proof.
  apply (Mock_descriptors_render (Examples.sampleWorld Examples.forwards)
           Examples.storeInfo ["Store"] Examples.sampleMocker
           (snd Examples.storeRun) Examples.storeDoc
           (moq.mkObj "Store"
              [moq.mkMethod "Get"
                 [moq.mkParam "ctx" "context.Context" false;
                  moq.mkParam "in2" "string" false]
                 [moq.mkParam "out1" "*pkg.Item" false;
                  moq.mkParam "out2" "error" false]])).
  - vm_compute. reflexivity.
  - vm_compute. left. reflexivity.
  - left. reflexivity.
Defined.

(** Two parameters of one tuple that the source leaves unnamed get
    different names. *)
Theorem extractArgs_synthesized_names_differ
    (sig : types.Signature) (vars : list types.Var) (nameFormat : string)
    (m m' : moq.Mocker) (ps : list moq.param)
    (j k : nat) (vj vk : types.Var) (pj pk : moq.param) :
  nameFormat = "in%d" \/ nameFormat = "out%d" ->
  moq.extractArgs sig vars nameFormat m = (moq.Ok ps, m') ->
  nth_error vars j = Some vj -> nth_error vars k = Some vk ->
  nth_error ps j = Some pj -> nth_error ps k = Some pk ->
  types.VarName vj = "" -> types.VarName vk = "" ->
  j <> k ->
  moq.par_Name pj <> moq.par_Name pk.
Proof.
  intros Hfmt H Hvj Hvk Hpj Hpk Hnj Hnk Hjk Heq.
  assert (Hspec : exists prefix,
             Spec.extracted sig (List.length vars) prefix 0 vars ps).
  { destruct Hfmt as [-> | ->].
    - exists "in". now apply (extractArgs_spec _ _ _ "in" _ _ _ Sprintf_in) in H.
    - exists "out". now apply (extractArgs_spec _ _ _ "out" _ _ _ Sprintf_out) in H. }
  destruct Hspec as [prefix Hspec]. apply extracted_nth in Hspec.
  destruct Hspec as [_ Hnth].
  destruct (Hnth j vj pj Hvj Hpj) as [Hj _].
  destruct (Hnth k vk pk Hvk Hpk) as [Hk _].
  unfold Spec.nameAt in Hj, Hk. rewrite Hnj in Hj. rewrite Hnk in Hk.
  cbn [String.eqb] in Hj, Hk. rewrite Hj, Hk in Heq.
  apply append_inj_l, decimal_inj in Heq. simpl in Heq. lia.
Qed.

(** The two results of [Get], both unnamed: [out1] and [out2]. *)
Lemma extractArgs_synthesized_names_differ_witness :
  nth_error (types.Results Examples.sigGet) 0
  = Some (types.mkVar "" (types.Pointer Examples.tItem))
  /\ moq.par_Name (moq.mkParam "out1" "*pkg.Item" false)
     <> moq.par_Name (moq.mkParam "out2" "error" false).
Proof.
  split; [reflexivity|].
  apply (extractArgs_synthesized_names_differ Examples.sigGet
           (types.Results Examples.sigGet) "out%d" Examples.sampleMocker
           (snd (moq.extractArgs Examples.sigGet (types.Results Examples.sigGet)
                   "out%d" Examples.sampleMocker))
           [moq.mkParam "out1" "*pkg.Item" false; moq.mkParam "out2" "error" false]
           0 1 (types.mkVar "" (types.Pointer Examples.tItem))
           (types.mkVar "" Examples.tError)).
  - right. reflexivity.
  - vm_compute. reflexivity.
  - reflexivity.
  - reflexivity.
  - reflexivity.
  - reflexivity.
  - reflexivity.
  - reflexivity.
  - discriminate.
Defined.

(** The document mirrors the request: the package name is the
    receiver's, there is one object per requested name, in request order
    (a name asked twice is mocked twice), and each object has one method
    per method of its interface, in order and under its name, with as
    many parameter and result descriptors as the signature has. *)
Theorem Mock_document_mirrors_request
    (W : moq.World) (tpkg : types.PackageInfo) (name : list string)
    (m m' : moq.Mocker) (d : moq.doc) :
  moq.mockDoc W tpkg name m = (moq.Ok d, m') ->
  moq.PackageName d = moq.pkgName m
  /\ map moq.InterfaceName (moq.Objects d) = name
  /\ Forall2
       (fun n o =>
          exists meths,
            Spec.interfaceMethods tpkg n = Some meths
            /\ map moq.meth_Name (moq.Methods o) = map types.FuncName meths
            /\ Forall2
                 (fun f mt =>
                    List.length (moq.meth_Params mt)
                    = List.length (types.Params (types.FuncType f))
                    /\ List.length (moq.meth_Returns mt)
                       = List.length (types.Results (types.FuncType f)))
                 meths (moq.Methods o))
       name (moq.Objects d).
Proof.
  intros Hdoc. apply mockDoc_spec in Hdoc. destruct Hdoc as (Hp & Hall & _).
  split; [exact Hp|]. split.
  - transitivity (map (fun n : string => n) name); [|apply map_id].
    apply Forall2_map_eq.
    eapply Forall2_impl; [|exact Hall]. now intros n o [Hn _].
  - eapply Forall2_impl; [|exact Hall].
    intros n o (_ & meths & Hm & Hms). exists meths. split; [exact Hm|]. split.
    + apply Forall2_map_eq. eapply Forall2_impl; [|exact Hms].
      now intros f mt [Hn _].
    + eapply Forall2_impl; [|exact Hms].
      intros f mt (_ & Hin & Hout).
      apply extracted_nth in Hin. apply extracted_nth in Hout.
      split; [apply Hin | apply Hout].
Qed.

(** The document of [Store] and [Empty], asked for in this order. *)
Lemma Mock_document_mirrors_request_witness :
  moq.PackageName Examples.pairDoc = moq.pkgName Examples.sampleMocker
  /\ map moq.InterfaceName (moq.Objects Examples.pairDoc) = ["Store"; "Empty"]
  /\ Forall2
       (fun n o =>
          exists meths,
            Spec.interfaceMethods Examples.storeInfo n = Some meths
            /\ map moq.meth_Name (moq.Methods o) = map types.FuncName meths
            /\ Forall2
                 (fun f mt =>
                    List.length (moq.meth_Params mt)
                    = List.length (types.Params (types.FuncType f))
                    /\ List.length (moq.meth_Returns mt)
                       = List.length (types.Results (types.FuncType f)))
                 meths (moq.Methods o))
       ["Store"; "Empty"] (moq.Objects Examples.pairDoc).
Proof.
  apply (Mock_document_mirrors_request (Examples.sampleWorld Examples.forwards)
           Examples.storeInfo ["Store"; "Empty"] Examples.sampleMocker
           (snd Examples.pairRun) Examples.pairDoc).
  vm_compute. reflexivity.
Defined.

(** ** What a call adds to the import set *)

Section Adds.
Import moq Spec Cover.

Lemma adds_nil (m : Mocker) : adds [] m m.
Proof.
  split; [reflexivity|]. intros p. split; [auto|].
  intros [H|(pkg & [] & _)]. exact H.
Qed.

Lemma adds_app (A B : list types.Package) (m m1 m2 : Mocker) :
  adds A m m1 -> adds B m1 m2 -> adds (A ++ B) m m2.
Proof.
  intros [Hp1 H1] [Hp2 H2]. split; [congruence|].
  intros p. rewrite H2, H1. unfold foreign, importOf. rewrite Hp1.
  split.
  - intros [[H|(pkg & Hin & Hf & Hp)]|(pkg & Hin & Hf & Hp)]; auto;
      right; exists pkg; rewrite in_app_iff; auto.
  - intros [H|(pkg & Hin & Hf & Hp)]; auto.
    apply in_app_iff in Hin. destruct Hin as [Hin|Hin].
    + left. right. exists pkg. auto.
    + right. exists pkg. auto.
Qed.

Lemma packageQualifier_adds (pkg : types.Package) (m : Mocker) :
  adds [pkg] m (snd (packageQualifier pkg m)).
Proof.
  unfold packageQualifier, adds, foreign, importOf.
  destruct (String.eqb (path.Join [path.Dir (types.Path pkg); types.Name pkg])
              (m_pkgPath m)) eqn:E; cbn [snd m_pkgPath imports].
  - split; [reflexivity|]. intros p. split; [auto|].
    intros [H|(q & [<-|[]] & Hf & _)]; [exact H|].
    rewrite E in Hf. discriminate Hf.
  - split; [reflexivity|]. intros p. rewrite record_In. split.
    + intros [->|H]; [|auto]. right. exists pkg. rewrite E. simpl. auto.
    + intros [H|(q & [<-|[]] & _ & ->)]; auto.
Qed.

Lemma TypeString_adds (t : types.Type_) (m : Mocker) :
  adds (packagesOf t) m (snd (types.TypeString packageQualifier t m)).
Proof.
  revert m.
  induction t as [n|pkg n|b IH|e IH|len e IH|k IHk e IHe|d e IH]; intros m;
    cbn [types.TypeString packagesOf].
  - apply adds_nil.
  - destruct pkg as [pkg|]; [|apply adds_nil].
    unfold types.writePackage.
    pose proof (packageQualifier_adds pkg m) as H.
    destruct (packageQualifier pkg m); exact H.
  - specialize (IH m). destruct (types.TypeString _ b m); exact IH.
  - specialize (IH m). destruct (types.TypeString _ e m); exact IH.
  - specialize (IH m). destruct (types.TypeString _ e m); exact IH.
  - specialize (IHk m). destruct (types.TypeString _ k m) as [sk m1].
    specialize (IHe m1). destruct (types.TypeString _ e m1) as [se m2].
    cbn [snd] in *. eapply adds_app; eauto.
  - specialize (IH m). destruct (types.TypeString _ e m); exact IH.
Qed.

Lemma extractArgsFrom_adds (sig : types.Signature) (listLen : nat)
    (nameFormat : string) :
  forall rest ii params m ps m',
    extractArgsFrom sig listLen nameFormat ii rest params m = (Ok ps, m') ->
    adds (packagesOfVars rest) m m'.
Proof.
  induction rest as [|x rest IH]; intros ii params m ps m' H.
  - cbn [extractArgsFrom] in H. unfold ret in H. injection H as _ <-.
    apply adds_nil.
  - cbn [extractArgsFrom] in H.
    apply bind_Ok in H. destruct H as (typename & m1 & Ht & H).
    apply lift_Ok in Ht.
    apply bind_Ok in H. destruct H as (variadic & m2 & Hv & H).
    apply variadic_flag in Hv. destruct Hv as [-> _].
    apply IH in H. unfold packagesOfVars. cbn [flat_map].
    eapply adds_app; [|exact H].
    pose proof (TypeString_adds (types.VarType x) m) as G. now rewrite Ht in G.
Qed.

Lemma mockMethods_adds :
  forall meths methods b m r m',
    mockMethods meths methods b m = (Ok r, m') ->
    adds (flat_map packagesOfFunc meths) m m'.
Proof.
  induction meths as [|meth meths IH]; intros methods b m r m' H.
  - cbn [mockMethods] in H. unfold ret in H. injection H as _ <-.
    apply adds_nil.
  - cbn [mockMethods] in H.
    apply bind_Ok in H. destruct H as (Params & m1 & Hp & H).
    apply bind_Ok in H. destruct H as (Returns & m2 & Hr & H).
    apply extractArgsFrom_adds in Hp. apply extractArgsFrom_adds in Hr.
    apply IH in H. cbn [flat_map]. unfold packagesOfFunc at 1.
    eapply adds_app; [eapply adds_app|]; eauto.
Qed.

Lemma mockNames_adds (tpkg : types.PackageInfo) :
  forall name objects b m r m',
    mockNames tpkg name objects b m = (Ok r, m') ->
    adds (flat_map packagesOfFunc (requestedFuncs tpkg name)) m m'.
Proof.
  induction name as [|n name IH]; intros objects b m r m' H.
  - cbn [mockNames] in H. unfold ret in H. injection H as _ <-.
    apply adds_nil.
  - cbn [mockNames] in H. unfold requestedFuncs. cbn [flat_map].
    unfold interfaceMethods at 1.
    destruct (types.Lookup (types.Scope tpkg) n) as [iface|]; [|discriminate H].
    destruct (types.Methods iface) as [meths|]; [|discriminate H].
    apply bind_Ok in H. destruct H as (r1 & m1 & Hms & H).
    apply mockMethods_adds in Hms. apply IH in H.
    rewrite flat_map_app. eapply adds_app; eauto.
Qed.

End Adds.

(** After a call that builds its document, the import set holds what it
    held before and, besides, exactly the paths of the packages foreign to
    the receiver that the signatures of the requested interfaces mention:
    every such package is recorded, and no path is recorded for any other
    reason. The identity of the receiver is the same. *)
Theorem Mock_records_exactly_the_foreign_packages
    (W : moq.World) (tpkg : types.PackageInfo) (name : list string)
    (m m' : moq.Mocker) (d : moq.doc) (p : string) :
  moq.mockDoc W tpkg name m = (moq.Ok d, m') ->
  moq.m_pkgPath m' = moq.m_pkgPath m
  /\ (In p (moq.imports m') <->
      In p (moq.imports m)
      \/ exists f pkg,
           In f (Cover.requestedFuncs tpkg name)
           /\ In pkg (Cover.packagesOfFunc f)
           /\ Cover.foreign m pkg = true /\ p = Cover.importOf m pkg).
Proof.
  intros Hdoc. unfold moq.mockDoc in Hdoc.
  apply bind_Ok in Hdoc. destruct Hdoc as (r & m1 & Hn & H).
  injection H as _ <-.
  apply mockNames_adds in Hn. destruct Hn as [Hpath Himp].
  split; [exact Hpath|]. rewrite Himp. split.
  - intros [H|(pkg & Hin & Hf & Hp)]; [auto|].
    apply in_flat_map in Hin. destruct Hin as (f & Hf1 & Hf2).
    right. exists f, pkg. auto.
  - intros [H|(f & pkg & Hf1 & Hf2 & Hf & Hp)]; [auto|].
    right. exists pkg. split; [|auto]. apply in_flat_map. eauto.
Qed.

(** The call for [Store]: the vendored package of [Item] is recorded
    because [Get] mentions it. *)
Lemma Mock_records_witness :
  moq.m_pkgPath (snd Examples.storeRun) = moq.m_pkgPath Examples.sampleMocker
  /\ (In "example.com/mod/vendor/example.org/pkg"
        (moq.imports (snd Examples.storeRun)) <->
      In "example.com/mod/vendor/example.org/pkg"
        (moq.imports Examples.sampleMocker)
      \/ exists f pkg,
           In f (Cover.requestedFuncs Examples.storeInfo ["Store"])
           /\ In pkg (Cover.packagesOfFunc f)
           /\ Cover.foreign Examples.sampleMocker pkg = true
           /\ "example.com/mod/vendor/example.org/pkg"
              = Cover.importOf Examples.sampleMocker pkg).
Proof.
  apply (Mock_records_exactly_the_foreign_packages
           (Examples.sampleWorld Examples.forwards) Examples.storeInfo ["Store"]
           Examples.sampleMocker (snd Examples.storeRun) Examples.storeDoc).
  vm_compute. reflexivity.
Defined.

(** ** New *)

Section NewFacts.
Import moq Spec.

Lemma inferPackageName_In (pkgs : list string) :
  inferPackageName pkgs <> "" ->
  In (inferPackageName pkgs) pkgs
  /\ strings.Contains (inferPackageName pkgs) "_test" = false.
Proof.
  induction pkgs as [|p pkgs IH]; cbn [inferPackageName]; [congruence|].
  destruct (strings.Contains p "_test") eqn:E; intros H.
  - destruct (IH H). split; [now right | assumption].
  - split; [now left | exact E].
Qed.

Lemma inferPackageName_none (pkgs : list string) :
  (forall p, In p pkgs -> strings.Contains p "_test" = true) ->
  inferPackageName pkgs = "".
Proof.
  induction pkgs as [|p pkgs IH]; intros H; cbn [inferPackageName]; [reflexivity|].
  rewrite (H p (or_introl eq_refl)). apply IH. intros q Hq. apply H. now right.
Qed.

Lemma length_zero_empty (s : string) :
  Nat.eqb (String.length s) 0 = true <-> s = "".
Proof. destruct s; simpl; split; congruence. Qed.

End NewFacts.

(** The receiver [New] returns: it keeps the source directory, its
    package name is not empty and is the one given when one is given, its
    template is the parsed [moqTemplate], its import set is empty, and its
    identity is the directory of the source's package path joined with the
    package name. When no name is given, the name is one of the parsed
    packages, and one without [_test] in it. *)
Theorem New_receiver
    (W : moq.World) (src packageName : string) (m : moq.Mocker) :
  Spec.fair W ->
  moq.New W src packageName = moq.Ok m ->
  moq.src m = src
  /\ moq.pkgName m <> ""
  /\ (packageName <> "" -> moq.pkgName m = packageName)
  /\ moq.moqTemplate W = Some (moq.tmpl m)
  /\ moq.imports m = []
  /\ (exists pkgFull,
        moq.pkgPath W src = moq.Ok pkgFull
        /\ moq.m_pkgPath m = path.Join [path.Dir pkgFull; moq.pkgName m])
  /\ (packageName = "" ->
      exists pkgs,
        moq.ParseDir W src moq.noTestFiles = Some pkgs
        /\ In (moq.pkgName m) pkgs
        /\ strings.Contains (moq.pkgName m) "_test" = false).
Proof.
  intros Hfair HNew.
  pose proof (New_pkgPath W src packageName m HNew) as [Himp Hpath].
  pose proof (New_tmpl W src packageName m HNew) as Htmpl.
  unfold moq.New in HNew.
  destruct (moq.ParseDir W src moq.noTestFiles) as [pkgs|]; [|discriminate].
  set (chosen := if Nat.eqb (String.length packageName) 0
                 then moq.inferPackageName (moq.rangeKeys W pkgs)
                 else packageName) in HNew.
  destruct (Nat.eqb (String.length chosen) 0) eqn:Hlen; [discriminate|].
  destruct (moq.pkgPath W src) as [pkgFull| |]; try discriminate.
  destruct (moq.moqTemplate W) as [t|]; [|discriminate].
  injection HNew as <-. cbn [moq.src moq.pkgName] in *.
  assert (Hne : chosen <> "").
  { intros E. apply length_zero_empty in E. congruence. }
  split; [reflexivity|]. split; [exact Hne|].
  split; [|split; [exact Htmpl|split; [exact Himp|split; [exact Hpath|]]]].
  - intros Hgiven. unfold chosen.
    destruct (Nat.eqb (String.length packageName) 0) eqn:E; [|reflexivity].
    apply length_zero_empty in E. contradiction.
  - intros ->. exists pkgs. split; [reflexivity|].
    unfold chosen in *. cbn [String.length Nat.eqb] in *.
    destruct (inferPackageName_In _ Hne) as [Hin Hnt].
    split; [|exact Hnt]. eapply Permutation_in; [apply Hfair | exact Hin].
Qed.

(** The sample directory, with the package name given. *)
Lemma New_receiver_witness :
  moq.src Examples.newMocker = "."
  /\ moq.pkgName Examples.newMocker <> ""
  /\ ("store" <> "" -> moq.pkgName Examples.newMocker = "store")
  /\ moq.moqTemplate (Examples.sampleWorld Examples.forwards)
     = Some (moq.tmpl Examples.newMocker)
  /\ moq.imports Examples.newMocker = []
  /\ (exists pkgFull,
        moq.pkgPath (Examples.sampleWorld Examples.forwards) "." = moq.Ok pkgFull
        /\ moq.m_pkgPath Examples.newMocker
           = path.Join [path.Dir pkgFull; moq.pkgName Examples.newMocker])
  /\ ("store" = "" ->
      exists pkgs,
        moq.ParseDir (Examples.sampleWorld Examples.forwards) "." moq.noTestFiles
        = Some pkgs
        /\ In (moq.pkgName Examples.newMocker) pkgs
        /\ strings.Contains (moq.pkgName Examples.newMocker) "_test" = false).
Proof.
  apply (New_receiver (Examples.sampleWorld Examples.forwards) "." "store"
           Examples.newMocker).
  - intros keys. apply Permutation_refl.
  - vm_compute. reflexivity.
Defined.

(** With no package name given, [New] fails with "failed to determine
    package name" when every parsed package has [_test] in its name, an
    empty directory included. *)
Theorem New_fails_without_candidate
    (W : moq.World) (src : string) (pkgs : list string) :
  Spec.fair W ->
  moq.ParseDir W src moq.noTestFiles = Some pkgs ->
  (forall p, In p pkgs -> strings.Contains p "_test" = true) ->
  moq.New W src "" = moq.Err moq.ErrNoPackageName.
Proof.
  intros Hfair Hparse Hall. unfold moq.New. rewrite Hparse.
  cbn [String.length Nat.eqb].
  rewrite inferPackageName_none; [reflexivity|].
  intros p Hp. apply Hall. eapply Permutation_in; [apply Hfair | exact Hp].
Qed.

(** A directory whose only Go file outside the tests declares the
    package [store_test]. *)
Lemma New_fails_without_candidate_witness :
  moq.New Examples.testOnlyWorld "." "" = moq.Err moq.ErrNoPackageName.
Proof.
  apply (New_fails_without_candidate Examples.testOnlyWorld "." ["store_test"]).
  - intros keys. apply Permutation_refl.
  - vm_compute. reflexivity.
  - intros p [<-|[]]. vm_compute. reflexivity.
Defined.

(** ** Package paths *)

Section GopathFacts.
Import moq.

Lemma TrimPrefix_app (pre p : string) : strings.TrimPrefix (pre ++ p) pre = p.
Proof.
  unfold strings.TrimPrefix, strings.HasPrefix. rewrite prefix_app_self.
  rewrite <- (Nat.add_0_r (String.length pre)). now rewrite drop_app_length.
Qed.

Lemma strip_all_outside (gopaths : list string) (p : string) :
  (forall g, In g gopaths ->
             strings.HasPrefix p (path.Join [g; "src"] ++ "/") = false) ->
  fold_left
    (fun p gopath => strings.TrimPrefix p (path.Join [gopath; "src"] ++ "/"))
    gopaths p = p.
Proof.
  induction gopaths as [|g gopaths IH]; intros H; cbn [fold_left]; [reflexivity|].
  unfold strings.TrimPrefix at 2. rewrite (H g (or_introl eq_refl)).
  apply IH. intros g' Hg'. apply H. now right.
Qed.

End GopathFacts.

(** A directory that lies below the [src] folder of no GOPATH entry keeps
    its absolute path as package path; so does every directory when
    GOPATH is empty. *)
Theorem stripGopath_outside_workspace (W : moq.World) (p : string) :
  (forall g, In g (moq.gopaths W) ->
             strings.HasPrefix p (path.Join [g; "src"] ++ "/") = false) ->
  moq.stripGopath W p = p.
Proof. intros H. unfold moq.stripGopath. now apply strip_all_outside. Qed.

(** [/tmp/store], with GOPATH [/go]. *)
Lemma stripGopath_outside_workspace_witness :
  moq.stripGopath (Examples.sampleWorld Examples.forwards) "/tmp/store"
  = "/tmp/store".
Proof.
  apply (stripGopath_outside_workspace (Examples.sampleWorld Examples.forwards)).
  intros g Hg. vm_compute in Hg. destruct Hg as [<-|[]]. vm_compute. reflexivity.
Defined.

(** With a GOPATH of one entry, a source directory whose absolute path
    is [<gopath>/src/<rel>] has the package path [<rel>]. *)
Theorem pkgPath_below_gopath (W : moq.World) (src rel : string) :
  moq.GOPATH W <> "" ->
  strings.Contains (moq.GOPATH W) ":" = false ->
  moq.Abs W src = Some (path.Join [moq.GOPATH W; "src"] ++ "/" ++ rel) ->
  moq.pkgPath W src = moq.Ok rel.
Proof.
  intros Hne Hone Habs. unfold moq.pkgPath. rewrite Habs. f_equal.
  unfold moq.stripGopath, moq.gopaths, path.SplitList.
  destruct (String.eqb (moq.GOPATH W) "") eqn:E;
    [apply String.eqb_eq in E; contradiction|].
  apply Contains_false_Index in Hone.
  unfold strings.Split. rewrite (genSplit_None _ _ _ Hone).
  cbn [fold_left].
  rewrite <- (append_assoc' (path.Join [moq.GOPATH W; "src"]) "/" rel).
  apply TrimPrefix_app.
Qed.

(** The sample package directory, reached through the working directory. *)
Lemma pkgPath_below_gopath_witness :
  moq.pkgPath (Examples.sampleWorld Examples.forwards) "."
  = moq.Ok "example.com/mod/store".
Proof.
  apply (pkgPath_below_gopath (Examples.sampleWorld Examples.forwards) "."
           "example.com/mod/store").
  - discriminate.
  - vm_compute. reflexivity.
  - vm_compute. reflexivity.
Defined.

(** ** What the cleanup removes *)

Section CleanupFacts.
Import moq.

Lemma Remove_incl (n : string) (fs : list File) (f : File) :
  In f (snd (Remove n fs)) -> In f fs.
Proof.
  induction fs as [|g fs IH]; cbn [Remove]; [auto|].
  destruct (String.eqb (file_path g) n).
  - destruct (file_locked g); cbn [snd]; [auto | now right].
  - destruct (Remove n fs) as [e rest]. cbn [snd] in *.
    intros [<-|H]; [now left | right; auto].
Qed.

Lemma Remove_keeps (n : string) (fs : list File) (f : File) :
  In f fs -> file_locked f = true \/ file_path f <> n ->
  In f (snd (Remove n fs)).
Proof.
  induction fs as [|g fs IH]; cbn [Remove]; [auto|].
  intros Hin Hkeep. destruct (String.eqb (file_path g) n) eqn:E.
  - destruct (file_locked g) eqn:L; cbn [snd]; [exact Hin|].
    destruct Hin as [<-|Hin]; [|exact Hin].
    apply String.eqb_eq in E. destruct Hkeep; congruence.
  - destruct (Remove n fs) as [e rest]. cbn [snd] in *.
    destruct Hin as [<-|Hin]; [now left | right; auto].
Qed.

Lemma Remove_gone (n : string) (fs : list File) (f : File) :
  NoDup (map file_path fs) ->
  In f (snd (Remove n fs)) -> file_path f = n -> file_locked f = true.
Proof.
  induction fs as [|g fs IH]; cbn [Remove]; [intros _ []|].
  intros Hnd. cbn [map] in Hnd. inversion Hnd as [|x l Hnotin Hnd']; subst.
  destruct (String.eqb (file_path g) n) eqn:E.
  - apply String.eqb_eq in E.
    destruct (file_locked g) eqn:L; cbn [snd]; intros Hin Hp.
    + destruct Hin as [<-|Hin]; [exact L|]. exfalso. apply Hnotin.
      rewrite E, <- Hp. now apply in_map.
    + exfalso. apply Hnotin. rewrite E, <- Hp. now apply in_map.
  - destruct (Remove n fs) as [e rest] eqn:R. cbn [snd] in *.
    intros [<-|Hin] Hp; [|auto].
    apply String.eqb_neq in E. contradiction.
Qed.

Lemma Remove_NoDup (n : string) (fs : list File) :
  NoDup (map file_path fs) -> NoDup (map file_path (snd (Remove n fs))).
Proof.
  induction fs as [|g fs IH]; cbn [Remove]; [auto|].
  intros Hnd. cbn [map] in Hnd. inversion Hnd as [|x l Hnotin Hnd']; subst.
  destruct (String.eqb (file_path g) n).
  - destruct (file_locked g); cbn [snd]; [exact Hnd | exact Hnd'].
  - pose proof (Remove_incl n fs) as Hincl.
    destruct (Remove n fs) as [e rest]. cbn [snd map] in *.
    constructor; [|auto]. intros Hin. apply Hnotin.
    apply in_map_iff in Hin. destruct Hin as (f & <- & Hf).
    apply in_map. auto.
Qed.

(** The loop of [removeOldMocks] over the glob result. *)
Lemma remove_all_frame (oldMocks : list string) :
  forall fs,
    let fs' := fold_left (fun fs mock => snd (Remove mock fs)) oldMocks fs in
    (forall f, In f fs' -> In f fs)
    /\ (forall f, In f fs ->
                  file_locked f = true \/ ~ In (file_path f) oldMocks ->
                  In f fs')
    /\ (NoDup (map file_path fs) ->
        forall f, In f fs' -> In (file_path f) oldMocks -> file_locked f = true).
Proof.
  induction oldMocks as [|mock oldMocks IH]; intros fs; cbn [fold_left].
  - split; [auto|]. split; [auto|]. intros _ f _ [].
  - destruct (IH (snd (Remove mock fs))) as (Hincl & Hkeep & Hgone).
    split; [|split].
    + intros f Hf. apply (Remove_incl mock). auto.
    + intros f Hf Hk. apply Hkeep.
      * apply Remove_keeps; [exact Hf|].
        destruct Hk as [Hk|Hk]; [now left|]. right. intros E. apply Hk. now left.
      * destruct Hk as [Hk|Hk]; [now left|]. right. intros Hin. apply Hk.
        now right.
    + intros Hnd f Hf [E|Hin].
      * apply Hincl in Hf. apply (Remove_gone mock fs f Hnd Hf). now symmetry.
      * apply (Hgone (Remove_NoDup mock fs Hnd) f Hf Hin).
Qed.

End CleanupFacts.

(** What a cleanup that reports no error has done: it adds no file, it
    keeps every locked file and every file the glob did not return, and,
    the paths of the directory being distinct, every file the glob returned
    that is still there is a locked one. *)
Theorem removeOldMocks_removes_only_what_glob_returned
    (W : moq.World) (srcFolder : string) (fs fs' : list moq.File) :
  moq.removeOldMocks W srcFolder fs = (None, fs') ->
  exists abs oldMocks,
    moq.Abs W srcFolder = Some abs
    /\ moq.Glob W (path.Join [abs; "*_mock.go"]) = Some oldMocks
    /\ (forall f, In f fs' -> In f fs)
    /\ (forall f, In f fs ->
                  moq.file_locked f = true \/ ~ In (moq.file_path f) oldMocks ->
                  In f fs')
    /\ (NoDup (map moq.file_path fs) ->
        forall f, In f fs' -> In (moq.file_path f) oldMocks ->
                  moq.file_locked f = true).
Proof.
  unfold moq.removeOldMocks.
  destruct (moq.Abs W srcFolder) as [abs|] eqn:Ha; [|discriminate].
  destruct (moq.Glob W (path.Join [abs; "*_mock.go"])) as [oldMocks|] eqn:Hg;
    [|discriminate].
  intros H. injection H as <-. exists abs, oldMocks.
  split; [reflexivity|]. split; [exact Hg|]. apply remove_all_frame.
Qed.

(** The sample directory with a stale mock and a source file beside it. *)
Lemma removeOldMocks_removes_witness :
  exists abs oldMocks,
    moq.Abs (Examples.sampleWorld Examples.forwards) "." = Some abs
    /\ moq.Glob (Examples.sampleWorld Examples.forwards)
         (path.Join [abs; "*_mock.go"]) = Some oldMocks
    /\ (forall f, In f [Examples.sourceFile] ->
                  In f [Examples.staleMock; Examples.sourceFile])
    /\ (forall f, In f [Examples.staleMock; Examples.sourceFile] ->
                  moq.file_locked f = true \/ ~ In (moq.file_path f) oldMocks ->
                  In f [Examples.sourceFile])
    /\ (NoDup (map moq.file_path [Examples.staleMock; Examples.sourceFile]) ->
        forall f, In f [Examples.sourceFile] ->
                  In (moq.file_path f) oldMocks -> moq.file_locked f = true).
Proof.
  apply (removeOldMocks_removes_only_what_glob_returned
           (Examples.sampleWorld Examples.forwards) "."
           [Examples.staleMock; Examples.sourceFile] [Examples.sourceFile]).
  vm_compute. reflexivity.
Defined.

(** ** More on Mock *)

(** [Mock] cleans up before it looks at anything else but the number of
    names: with a name given, the files it leaves are those the cleanup
    leaves, whether the call then succeeds, fails or panics; with no name
    given it fails and touches no file. *)
Theorem Mock_cleans_up_whatever_follows
    (W : moq.World) (m : moq.Mocker) (w : moq.Writer) (name : list string)
    (fs : list moq.File) :
  (name <> [] ->
   moq.files (moq.Mock W m w name fs)
   = snd (moq.removeOldMocks W (moq.src m) fs))
  /\ (name = [] ->
      moq.result (moq.Mock W m w name fs) = moq.Err moq.ErrMustSpecify
      /\ moq.files (moq.Mock W m w name fs) = fs).
Proof.
  split.
  - intros Hne. unfold moq.Mock. destruct name as [|n name]; [congruence|].
    cbn [List.length Nat.eqb].
    destruct (moq.removeOldMocks W (moq.src m) fs) as [[e|] fs']; [reflexivity|].
    destruct (moq.pkgInfoFromPath W (moq.src m)) as [pkgInfo|e|]; try reflexivity.
    destruct (moq.mockDoc W pkgInfo (n :: name) m) as [[d|e|] m'];
      try reflexivity.
    destruct (moq.tmpl m' d) as [buf|]; [|reflexivity].
    destruct (moq.Process W buf) as [formatted|]; [|reflexivity].
    destruct (moq.Write w formatted) as [[e|] w']; reflexivity.
  - intros ->. split; reflexivity.
Qed.

(** A call for a name that is not declared still removes the stale mock. *)
Lemma Mock_cleans_up_witness :
  moq.files (moq.Mock (Examples.sampleWorld Examples.forwards)
               Examples.sampleMocker Examples.stdout ["Missing"]
               [Examples.staleMock])
  = snd (moq.removeOldMocks (Examples.sampleWorld Examples.forwards)
           (moq.src Examples.sampleMocker) [Examples.staleMock]).
Proof.
  apply (proj1 (Mock_cleans_up_whatever_follows
                  (Examples.sampleWorld Examples.forwards) Examples.sampleMocker
                  Examples.stdout ["Missing"] [Examples.staleMock])).
  discriminate.
Defined.

(** A call of [Mock] that succeeds has written one chunk, after what the
    writer held: the formatted rendering, by the receiver's template, of
    the document built from the loaded package. *)
Theorem Mock_success_writes_formatted_document
    (W : moq.World) (m : moq.Mocker) (w : moq.Writer) (name : list string)
    (fs : list moq.File) :
  moq.result (moq.Mock W m w name fs) = moq.Ok tt ->
  exists pkgInfo d buf formatted,
    name <> []
    /\ moq.pkgInfoFromPath W (moq.src m) = moq.Ok pkgInfo
    /\ fst (moq.mockDoc W pkgInfo name m) = moq.Ok d
    /\ moq.tmpl m d = Some buf
    /\ moq.Process W buf = Some formatted
    /\ moq.written (moq.writer (moq.Mock W m w name fs))
       = (moq.written w ++ [formatted])%list.
Proof.
  unfold moq.Mock. destruct name as [|n name]; [discriminate|].
  cbn [List.length Nat.eqb].
  destruct (moq.removeOldMocks W (moq.src m) fs) as [[e|] fs']; [discriminate|].
  destruct (moq.pkgInfoFromPath W (moq.src m)) as [pkgInfo|e|] eqn:Hinfo;
    try discriminate.
  pose proof (mockDoc_grows W pkgInfo (n :: name) m) as G.
  destruct (moq.mockDoc W pkgInfo (n :: name) m) as [[d|e|] m'] eqn:Hdoc;
    try discriminate.
  destruct G as (_ & Ht & _). cbn [snd] in Ht. rewrite Ht.
  destruct (moq.tmpl m d) as [buf|] eqn:Hbuf; [|discriminate].
  destruct (moq.Process W buf) as [formatted|] eqn:Hp; [|discriminate].
  unfold moq.Write. destruct (moq.broken w); [discriminate|].
  intros _. exists pkgInfo, d, buf, formatted.
  split; [discriminate|]. split; [reflexivity|].
  split; [now rewrite Hdoc|]. split; [exact Hbuf|]. split; [exact Hp|].
  reflexivity.
Qed.

(** The call for [Empty] on the sample receiver. *)
Lemma Mock_success_witness :
  exists pkgInfo d buf formatted,
    ["Empty"] <> []
    /\ moq.pkgInfoFromPath (Examples.sampleWorld Examples.forwards)
         (moq.src Examples.sampleMocker) = moq.Ok pkgInfo
    /\ fst (moq.mockDoc (Examples.sampleWorld Examples.forwards) pkgInfo
              ["Empty"] Examples.sampleMocker) = moq.Ok d
    /\ moq.tmpl Examples.sampleMocker d = Some buf
    /\ moq.Process (Examples.sampleWorld Examples.forwards) buf = Some formatted
    /\ moq.written (moq.writer Examples.freshCall)
       = (moq.written Examples.stdout ++ [formatted])%list.
Proof.
  apply (Mock_success_writes_formatted_document
           (Examples.sampleWorld Examples.forwards) Examples.sampleMocker
           Examples.stdout ["Empty"] []).
  vm_compute. reflexivity.
Defined.

(** Whatever its outcome, [Mock] leaves the receiver's source directory,
    template, package name and identity as they were. *)
Theorem Mock_keeps_receiver_identity
    (W : moq.World) (m : moq.Mocker) (w : moq.Writer) (name : list string)
    (fs : list moq.File) :
  moq.src (moq.mocker (moq.Mock W m w name fs)) = moq.src m
  /\ moq.tmpl (moq.mocker (moq.Mock W m w name fs)) = moq.tmpl m
  /\ moq.pkgName (moq.mocker (moq.Mock W m w name fs)) = moq.pkgName m
  /\ moq.m_pkgPath (moq.mocker (moq.Mock W m w name fs)) = moq.m_pkgPath m.
Proof.
  destruct (Mock_grows W m w name fs) as (H1 & H2 & H3 & H4 & _). auto.
Qed.

(** ** More on stripVendorPath *)

(** A path of the import set without [/vendor/] in it: [context]. *)
Lemma stripVendorPath_no_marker_witness :
  moq.stripVendorPath "context" = "context".
Proof. apply (stripVendorPath_no_marker "context"). reflexivity. Defined.

Section VendorMore.

Lemma TrimLeft_slash_unrooted (s : string) :
  strings.HasPrefix (strings.TrimLeft s "/") "/" = false.
Proof.
  induction s as [|c s IH]; [reflexivity|].
  cbn [strings.TrimLeft strings.inCutset]. rewrite orb_false_r.
  destruct (Ascii.eqb c "/") eqn:E; [exact IH|].
  unfold strings.HasPrefix. cbn [String.prefix].
  destruct (ascii_dec "/" c) as [<-|]; [|reflexivity].
  rewrite Ascii.eqb_refl in E. discriminate E.
Qed.

Lemma genSplit_nonempty (r : nat) (s sep : string) :
  strings.genSplit r s sep <> [].
Proof.
  destruct r; cbn [strings.genSplit]; [discriminate|].
  destruct (strings.Index s sep); discriminate.
Qed.

Lemma Split_marker_parts (p : string) :
  strings.Contains p "/vendor/" = true ->
  Nat.eqb (List.length (strings.Split p "/vendor/")) 1 = false.
Proof.
  unfold strings.Contains, strings.Split. intros H.
  destruct p as [|c p]; [discriminate H|].
  cbn [String.length strings.genSplit].
  destruct (strings.Index (String c p) "/vendor/") as [i|]; [|discriminate H].
  cbn [List.length].
  pose proof (genSplit_nonempty (String.length p)
                (strings.drop (i + String.length "/vendor/") (String c p))
                "/vendor/") as Hne.
  destruct (strings.genSplit _ _ _); [congruence | reflexivity].
Qed.

End VendorMore.

(** A path with a vendor marker is never rewritten to a rooted path:
    the result does not start with a slash. *)
Theorem stripVendorPath_result_is_unrooted (p : string) :
  strings.Contains p "/vendor/" = true ->
  strings.HasPrefix (moq.stripVendorPath p) "/" = false.
Proof.
  intros H. unfold moq.stripVendorPath. rewrite (Split_marker_parts p H).
  apply TrimLeft_slash_unrooted.
Qed.

(** A marker followed by a second slash. *)
Lemma stripVendorPath_result_is_unrooted_witness :
  strings.HasPrefix (moq.stripVendorPath "a/vendor//x") "/" = false.
Proof. apply (stripVendorPath_result_is_unrooted "a/vendor//x"). reflexivity. Defined.

(** ** The command *)





(** ** The lists of a method *)

Section Lists.
Import moq.

Lemma mapResult_plain {A B} (f : A -> Result B) (g : A -> B) (l : list A) :
  (forall a, In a l -> f a = Ok (g a)) -> mapResult f l = Ok (map g l).
Proof.
  induction l as [|a l IH]; intros H; cbn [mapResult map]; [reflexivity|].
  rewrite (H a (or_introl eq_refl)), IH; [reflexivity|].
  intros x Hx. apply H. now right.
Qed.

Lemma matchInitialism_In (upper : string) (l : list string) :
  In upper l -> matchInitialism upper l = Some upper.
Proof.
  induction l as [|x l IH]; [intros []|]. cbn [matchInitialism].
  destruct (String.eqb upper x) eqn:E.
  - apply String.eqb_eq in E. now subst x.
  - intros [->|H]; [|auto]. now rewrite String.eqb_refl in E.
Qed.

End Lists.

(** For a method none of whose descriptors is variadic, the parameter
    list is the names with their types, the call list the names, both
    separated by commas, and the return list is empty for no result, the
    bare type for one, and the types in parentheses for more. *)
Theorem method_lists_without_variadic (mt : moq.method) :
  (forall p, In p (moq.meth_Params mt ++ moq.meth_Returns mt)%list ->
             moq.par_Variadic p = false) ->
  moq.Arglist mt
  = moq.Ok (strings.Join
              (map (fun p => moq.par_Name p ++ " " ++ moq.par_Type p)
                 (moq.meth_Params mt)) ", ")
  /\ moq.ArgCallList mt = strings.Join (map moq.par_Name (moq.meth_Params mt)) ", "
  /\ moq.ReturnArglist mt
     = moq.Ok match moq.meth_Returns mt with
              | [] => ""
              | [r] => moq.par_Type r
              | _ => "(" ++ strings.Join (map moq.par_Type (moq.meth_Returns mt)) ", "
                     ++ ")"
              end.
Proof.
  intros Hplain.
  assert (Hty : forall p, In p (moq.meth_Params mt ++ moq.meth_Returns mt)%list ->
                          moq.param_TypeString p = moq.Ok (moq.par_Type p)).
  { intros p Hp. unfold moq.param_TypeString. now rewrite (Hplain p Hp). }
  split; [|split].
  - unfold moq.Arglist.
    rewrite (mapResult_plain moq.param_String
               (fun p => moq.par_Name p ++ " " ++ moq.par_Type p));
      [reflexivity|].
    intros p Hp. unfold moq.param_String. rewrite Hty; [reflexivity|].
    apply in_or_app. now left.
  - unfold moq.ArgCallList. f_equal. apply map_ext_in. intros p Hp.
    unfold moq.param_CallName. rewrite Hplain; [reflexivity|].
    apply in_or_app. now left.
  - unfold moq.ReturnArglist.
    rewrite (mapResult_plain moq.param_TypeString moq.par_Type).
    + destruct (moq.meth_Returns mt) as [|r [|r' rest]]; reflexivity.
    + intros p Hp. apply Hty. apply in_or_app. now right.
Qed.

(** The method [Get] of [Store]: two parameters, two results. *)
Lemma method_lists_witness :
  moq.Arglist Examples.getMethod
  = moq.Ok (strings.Join
              (map (fun p => moq.par_Name p ++ " " ++ moq.par_Type p)
                 (moq.meth_Params Examples.getMethod)) ", ")
  /\ moq.ArgCallList Examples.getMethod
     = strings.Join (map moq.par_Name (moq.meth_Params Examples.getMethod)) ", "
  /\ moq.ReturnArglist Examples.getMethod
     = moq.Ok match moq.meth_Returns Examples.getMethod with
              | [] => ""
              | [r] => moq.par_Type r
              | _ => "(" ++ strings.Join
                              (map moq.par_Type
                                 (moq.meth_Returns Examples.getMethod)) ", "
                     ++ ")"
              end.
Proof.
  apply (method_lists_without_variadic Examples.getMethod).
  intros p Hp. vm_compute in Hp.
  destruct Hp as [<-|[<-|[<-|[<-|[]]]]]; reflexivity.
Defined.

(** A name that is an initialism of the lint list up to the case of its
    ASCII letters is rendered as that initialism, in capitals. *)
Theorem Exported_initialism (s : string) :
  strings.isASCII s = true ->
  In (strings.ToUpper s) moq.golintInitialisms ->
  moq.Exported s = strings.ToUpper s.
Proof.
  intros _ Hin. unfold moq.Exported.
  destruct (String.eqb s "") eqn:E.
  - apply String.eqb_eq in E. now subst s.
  - now rewrite (matchInitialism_In _ _ Hin).
Qed.

(** [Url] becomes [URL]. *)
Lemma Exported_initialism_witness : moq.Exported "Url" = strings.ToUpper "Url".
Proof.
  apply (Exported_initialism "Url"); [reflexivity|].
  vm_compute. do 31 right. left. reflexivity.
Defined.
